(** * Veritas audit-trail engine: a shallow embedding of
    [veritas/merkle.py], [veritas/logger.py] and [veritas/verifier.py].

    Conventions.
    - A Python [str] is a Rocq [string] holding its UTF-8 bytes, so
      [data.encode('utf-8')] is the list of the string's characters and
      Python's [+] on strings is [String.append].
    - The SHA-256 of [hashlib] is written out below ([sha256_hex]); the
      Merkle tree, the logger and the verifier are parameterised by the hash
      function [hash : string -> string] and the development instantiates it
      with [sha256_hex] where a concrete run is needed. *)

From Stdlib Require Import ZArith List String Ascii Bool Lia DecimalString.
Import ListNotations.
Open Scope string_scope.

(* ------------------------------------------------------------------ *)
(** ** SHA-256 (FIPS 180-4) on byte lists, as used by [hashlib.sha256]. *)

Module Sha256.
Local Open Scope Z_scope.

Definition w32 (x : Z) : Z := Z.land x (2 ^ 32 - 1).
Definition add32 (x y : Z) : Z := w32 (x + y).
Definition rotr (n x : Z) : Z := Z.lor (Z.shiftr x n) (w32 (Z.shiftl x (32 - n))).
Definition not32 (x : Z) : Z := Z.lxor x (2 ^ 32 - 1).

Definition ch (x y z : Z) := Z.lxor (Z.land x y) (Z.land (not32 x) z).
Definition maj (x y z : Z) := Z.lxor (Z.lxor (Z.land x y) (Z.land x z)) (Z.land y z).
Definition bsig0 (x : Z) := Z.lxor (Z.lxor (rotr 2 x) (rotr 13 x)) (rotr 22 x).
Definition bsig1 (x : Z) := Z.lxor (Z.lxor (rotr 6 x) (rotr 11 x)) (rotr 25 x).
Definition ssig0 (x : Z) := Z.lxor (Z.lxor (rotr 7 x) (rotr 18 x)) (Z.shiftr x 3).
Definition ssig1 (x : Z) := Z.lxor (Z.lxor (rotr 17 x) (rotr 19 x)) (Z.shiftr x 10).

Definition round_constants : list Z :=
  [ 1116352408; 1899447441; 3049323471; 3921009573; 961987163; 1508970993;
    2453635748; 2870763221; 3624381080; 310598401; 607225278; 1426881987;
    1925078388; 2162078206; 2614888103; 3248222580; 3835390401; 4022224774;
    264347078; 604807628; 770255983; 1249150122; 1555081692; 1996064986;
    2554220882; 2821834349; 2952996808; 3210313671; 3336571891; 3584528711;
    113926993; 338241895; 666307205; 773529912; 1294757372; 1396182291;
    1695183700; 1986661051; 2177026350; 2456956037; 2730485921; 2820302411;
    3259730800; 3345764771; 3516065817; 3600352804; 4094571909; 275423344;
    430227734; 506948616; 659060556; 883997877; 958139571; 1322822218;
    1537002063; 1747873779; 1955562222; 2024104815; 2227730452; 2361852424;
    2428436474; 2756734187; 3204031479; 3329325298 ].

Definition initial_state : list Z :=
  [ 1779033703; 3144134277; 1013904242; 2773480762;
    1359893119; 2600822924; 528734635; 1541459225 ].

(** Padding: the byte 0x80, zero bytes up to 56 mod 64, then the bit
    length as a 64-bit big-endian number. *)
Definition be_bytes (n : nat) (x : Z) : list Z :=
  map (fun i => Z.land (Z.shiftr x (8 * Z.of_nat (n - 1 - i))) 255) (seq 0 n).

Definition pad (msg : list Z) : list Z :=
  let len := List.length msg in
  let zeros := ((119 - len mod 64) mod 64)%nat in
  (msg ++ [128] ++ repeat 0 zeros ++ be_bytes 8 (8 * Z.of_nat len))%list.

Fixpoint words_of_bytes (fuel : nat) (b : list Z) : list Z :=
  match fuel with
  | O => []
  | S f =>
      match b with
      | b0 :: b1 :: b2 :: b3 :: rest =>
          (b0 * 16777216 + b1 * 65536 + b2 * 256 + b3) :: words_of_bytes f rest
      | _ => []
      end
  end.

(** Message schedule, kept reversed: [rw] holds [W(t-1) :: W(t-2) :: ...]. *)
Fixpoint schedule_from (n : nat) (rw : list Z) : list Z :=
  match n with
  | O => rw
  | S n' =>
      let wt := add32 (add32 (ssig1 (nth 1 rw 0)) (nth 6 rw 0))
                      (add32 (ssig0 (nth 14 rw 0)) (nth 15 rw 0)) in
      schedule_from n' (wt :: rw)
  end.

Definition schedule (block : list Z) : list Z :=
  rev (schedule_from 48 (rev block)).

Definition round (st : list Z) (kw : Z * Z) : list Z :=
  match st with
  | [a; b; c; d; e; f; g; h] =>
      let t1 := add32 (add32 (add32 h (bsig1 e)) (add32 (ch e f g) (fst kw))) (snd kw) in
      let t2 := add32 (bsig0 a) (maj a b c) in
      [add32 t1 t2; a; b; c; add32 d t1; e; f; g]
  | _ => st
  end.

Definition compress (st : list Z) (block : list Z) : list Z :=
  let st' := fold_left round (combine round_constants (schedule block)) st in
  map (fun p => add32 (fst p) (snd p)) (combine st st').

Fixpoint blocks (fuel : nat) (ws : list Z) : list (list Z) :=
  match fuel with
  | O => []
  | S f => match ws with [] => [] | _ => firstn 16 ws :: blocks f (skipn 16 ws) end
  end.

Definition digest (msg : list Z) : list Z :=
  let p := pad msg in
  let ws := words_of_bytes (List.length p) p in
  fold_left compress (blocks (List.length ws) ws) initial_state.

Definition hex_char (d : Z) : ascii :=
  if d <? 10 then ascii_of_nat (48 + Z.to_nat d) else ascii_of_nat (87 + Z.to_nat d).

Definition hex_word (x : Z) : string :=
  fold_right (fun i s => String (hex_char (Z.land (Z.shiftr x (4 * (7 - Z.of_nat i))) 15)) s)
             EmptyString (seq 0 8).

Definition bytes_of_string (s : string) : list Z :=
  map (fun c => Z.of_nat (nat_of_ascii c)) (list_ascii_of_string s).

End Sha256.

(** [hashlib.sha256(data.encode('utf-8')).hexdigest()] *)
Definition sha256_hex (data : string) : string :=
  fold_right String.append EmptyString
             (map Sha256.hex_word (Sha256.digest (Sha256.bytes_of_string data))).

(* ------------------------------------------------------------------ *)
(** ** Python values that [model_dump(mode='json')] and [json] handle. *)

(** [None], [bool], [int], [float] (kept as the text of its [repr]), [str],
    [list] and [dict] (an association list in insertion order). *)
Set Warnings "-register-all".
Inductive value : Type :=
| VNone
| VBool (b : bool)
| VInt (z : Z)
| VFloat (repr : string)
| VStr (s : string)
| VList (xs : list value)
| VDict (kvs : list (string * value)).

(** Python truthiness, [if x:]. *)
Definition truthy (v : value) : bool :=
  match v with
  | VNone => false
  | VBool b => b
  | VInt z => negb (Z.eqb z 0)
  | VFloat r => negb (String.eqb r "0.0" || String.eqb r "-0.0")
  | VStr s => negb (String.eqb s "")
  | VList xs => match xs with [] => false | _ => true end
  | VDict kvs => match kvs with [] => false | _ => true end
  end.

(** [d.get(k)] on a dict given as an association list. *)
Fixpoint assoc_get (k : string) (kvs : list (string * value)) : option value :=
  match kvs with
  | [] => None
  | (k', v) :: rest => if String.eqb k k' then Some v else assoc_get k rest
  end.

(* ------------------------------------------------------------------ *)
(** ** [merkle.py]: [MerkleTree] *)

Module Merkle.

(** One entry of a proof: the dict [{'position': ..., 'data': ...}]. *)
Record proof_node := { position : string; data : string }.

Record MerkleTree := { leaves : list string; tree : list (list string) }.

Section WithHash.
Variable _hash : string -> string.

(** The body of the [while] loop of [_build]: pair adjacent nodes left to
    right, duplicating the last one of an odd level. *)
Fixpoint next_level (current_level : list string) : list string :=
  match current_level with
  | [] => []
  | [lft] => [_hash (lft ++ lft)]
  | lft :: rgt :: rest => _hash (lft ++ rgt) :: next_level rest
  end.

(** [self.tree = [current_level]; while len(current_level) > 1: ...];
    the loop runs at most [len(leaves)] times, which bounds [fuel]. *)
Fixpoint build_levels (fuel : nat) (current_level : list string) : list (list string) :=
  match fuel with
  | O => [current_level]
  | S f =>
      if Nat.ltb 1 (List.length current_level)
      then current_level :: build_levels f (next_level current_level)
      else [current_level]
  end.

Definition _build (lvs : list string) : list (list string) :=
  match lvs with
  | [] => []
  | _ => build_levels (List.length lvs) (map _hash lvs)
  end.

(** [__init__(leaves=None)]: [self.leaves = leaves or []]. *)
Definition init (lvs : option (list string)) : MerkleTree :=
  let l := match lvs with Some l => l | None => [] end in
  {| leaves := l; tree := _build l |}.

(** [add_leaf(data)]: append, rebuild; the method returns [None]. *)
Definition add_leaf (t : MerkleTree) (d : string) : MerkleTree * value :=
  let l := (leaves t ++ [d])%list in
  ({| leaves := l; tree := _build l |}, VNone).

(** [get_root()]: [None] on an empty tree, else [self.tree[-1][0]]. *)
Definition get_root (t : MerkleTree) : option string :=
  match tree t with
  | [] => None
  | _ => hd_error (last (tree t) [])
  end.

(** The loop of [get_proof] over [self.tree[:-1]]. *)
Fixpoint proof_levels (levels : list (list string)) (index : nat) : list proof_node :=
  match levels with
  | [] => []
  | level :: rest =>
      if Nat.leb (List.length level) index then []
      else
        let is_right_child := Nat.odd index in
        let sibling_index := if is_right_child then index - 1 else index + 1 in
        let sibling_hash :=
          if Nat.ltb sibling_index (List.length level) then nth sibling_index level ""
          else nth index level "" in
        {| position := if is_right_child then "left" else "right";
           data := sibling_hash |} :: proof_levels rest (Nat.div index 2)
  end.

Definition get_proof (t : MerkleTree) (index : nat) : list proof_node :=
  match tree t with
  | [] => []
  | _ => proof_levels (removelast (tree t)) index
  end.

(** The loop of [verify_proof]. *)
Fixpoint fold_proof (current_hash : string) (proof : list proof_node) : string :=
  match proof with
  | [] => current_hash
  | node :: rest =>
      let sibling := data node in
      fold_proof (if String.eqb (position node) "left"
                  then _hash (sibling ++ current_hash)
                  else _hash (current_hash ++ sibling)) rest
  end.

(** [verify_proof(leaf, proof, root)]: [current_hash == root], which is
    [False] when [root] is [None]. *)
Definition verify_proof (leaf : string) (proof : list proof_node) (root : option string) : bool :=
  match root with
  | Some r => String.eqb (fold_proof (_hash leaf) proof) r
  | None => false
  end.

End WithHash.
End Merkle.

(* ------------------------------------------------------------------ *)
(** ** The [json] module and Python's [str] on these values. *)

Module Json.

Definition chr (n : nat) : string := String (ascii_of_nat n) EmptyString.
Definition dquote : string := chr 34.
Definition squote : string := chr 39.
Definition backslash : string := chr 92.

Definition hex_digit (n : nat) : string :=
  if Nat.ltb n 10 then chr (48 + n) else chr (87 + n).
Definition hex2 (n : nat) : string := hex_digit (Nat.div n 16) ++ hex_digit (Nat.modulo n 16).

Definition z_to_string (z : Z) : string := NilEmpty.string_of_int (Z.to_int z).
Definition nat_to_string (n : nat) : string := z_to_string (Z.of_nat n).

(** [json.encoder]'s [ESCAPE_ASCII] (the default [ensure_ascii=True]). *)
Definition escape_char (c : ascii) : string :=
  let n := nat_of_ascii c in
  if Nat.eqb n 34 then backslash ++ dquote
  else if Nat.eqb n 92 then backslash ++ backslash
  else if Nat.eqb n 10 then backslash ++ "n"
  else if Nat.eqb n 13 then backslash ++ "r"
  else if Nat.eqb n 9 then backslash ++ "t"
  else if Nat.eqb n 8 then backslash ++ "b"
  else if Nat.eqb n 12 then backslash ++ "f"
  else if Nat.ltb n 32 || Nat.leb 127 n then backslash ++ "u00" ++ hex2 n
  else String c EmptyString.

Fixpoint escape (s : string) : string :=
  match s with
  | EmptyString => EmptyString
  | String c rest => escape_char c ++ escape rest
  end.

Definition encode_str (s : string) : string := dquote ++ escape s ++ dquote.

(** [sorted(dct.items())]: keys are unique, so this orders by key. *)
Fixpoint insert_by_key (kv : string * string) (l : list (string * string)) :=
  match l with
  | [] => [kv]
  | kv' :: rest =>
      if String.leb (fst kv) (fst kv') then kv :: kv' :: rest
      else kv' :: insert_by_key kv rest
  end.

Definition sort_by_key (l : list (string * string)) : list (string * string) :=
  fold_right insert_by_key [] l.

(** [json.dumps(v, sort_keys=True)] with the default separators
    [', '] and [': ']; a float is written as its [repr]. *)
Fixpoint dumps (v : value) : string :=
  match v with
  | VNone => "null"
  | VBool true => "true"
  | VBool false => "false"
  | VInt z => z_to_string z
  | VFloat r => r
  | VStr s => encode_str s
  | VList xs => "[" ++ String.concat ", " (map dumps xs) ++ "]"
  | VDict kvs =>
      let items := sort_by_key (map (fun kv => (fst kv, dumps (snd kv))) kvs) in
      "{" ++ String.concat ", " (map (fun kv => encode_str (fst kv) ++ ": " ++ snd kv) items) ++ "}"
  end.

(** [repr] of a [str]: single quotes unless the text has a single quote and
    no double quote. *)
Definition str_repr (s : string) : string :=
  let has c := match String.index 0 (chr c) s with Some _ => true | None => false end in
  let q := if has 39 && negb (has 34) then dquote else squote in
  let esc (c : ascii) :=
    let n := nat_of_ascii c in
    if Nat.eqb n 92 then backslash ++ backslash
    else if String.eqb (chr n) q then backslash ++ q
    else if Nat.eqb n 10 then backslash ++ "n"
    else if Nat.eqb n 13 then backslash ++ "r"
    else if Nat.eqb n 9 then backslash ++ "t"
    else if Nat.ltb n 32 || Nat.eqb n 127 then backslash ++ "x" ++ hex2 n
    else String c EmptyString in
  q ++ String.concat "" (map esc (list_ascii_of_string s)) ++ q.

(** [repr(v)]; [str(v)] differs from it only on a [str]. *)
Fixpoint py_repr (v : value) : string :=
  match v with
  | VNone => "None"
  | VBool true => "True"
  | VBool false => "False"
  | VInt z => z_to_string z
  | VFloat r => r
  | VStr s => str_repr s
  | VList xs => "[" ++ String.concat ", " (map py_repr xs) ++ "]"
  | VDict kvs =>
      "{" ++ String.concat ", " (map (fun kv => str_repr (fst kv) ++ ": " ++ py_repr (snd kv)) kvs) ++ "}"
  end.

Definition py_str (v : value) : string :=
  match v with VStr s => s | _ => py_repr v end.

End Json.

(* ------------------------------------------------------------------ *)
(** ** [logger.py]: [ActionLog] and [VeritasLogger] *)

(** Outcome of a Python call: a value, or a raised exception (its text). *)
Inductive result (A : Type) : Type :=
| Ok (a : A)
| Exc (e : string).
Arguments Ok {A} a.
Arguments Exc {A} e.

Module Logger.

(** [class ActionLog(BaseModel)], fields in declaration order. [id] and
    [timestamp] come from [uuid.uuid4()] and [time.time()] at creation;
    the timestamp is kept as the text of its float [repr]. *)
Record ActionLog := {
  id : string;
  basis_id : option string;
  timestamp : string;
  event_type : string;
  tool_name : string;
  input_params : list (string * value);
  output_result : value
}.

(** [model_dump(mode='json')] *)
Definition model_dump (e : ActionLog) : value :=
  VDict [("id", VStr (id e));
         ("basis_id", match basis_id e with Some b => VStr b | None => VNone end);
         ("timestamp", VFloat (timestamp e));
         ("event_type", VStr (event_type e));
         ("tool_name", VStr (tool_name e));
         ("input_params", VDict (input_params e));
         ("output_result", output_result e)].

(** [to_hashable_json()] *)
Definition to_hashable_json (e : ActionLog) : string := Json.dumps (model_dump e).

Record VeritasLogger := {
  _logs : list ActionLog;
  _merkle_tree : Merkle.MerkleTree;
  last_event_id : option string
}.

(** The values that [uuid.uuid4()] and [time.time()] return to one call
    of [log_action]. *)
Record fresh := { fresh_id : string; fresh_time : string }.

Section WithHash.
Variable _hash : string -> string.

Definition new_logger : VeritasLogger :=
  {| _logs := []; _merkle_tree := Merkle.init _hash None; last_event_id := None |}.

(** [get_current_root()]: [self._merkle_tree.get_root() or "0x0"]. *)
Definition get_current_root (L : VeritasLogger) : string :=
  match Merkle.get_root (_merkle_tree L) with
  | Some r => if truthy (VStr r) then r else "0x0"
  | None => "0x0"
  end.

(** [log_action(tool_name, params, result, event_type, basis_id)]; the
    [print] has no effect on the state. *)
Definition log_action (fr : fresh) (L : VeritasLogger) (tool_name0 : string)
           (params : list (string * value)) (result0 : value) (event_type0 : string)
           (basis_id0 : option string) : VeritasLogger * ActionLog :=
  let entry := {| id := fresh_id fr; basis_id := basis_id0; timestamp := fresh_time fr;
                  event_type := event_type0; tool_name := tool_name0;
                  input_params := params; output_result := result0 |} in
  let logs := (_logs L ++ [entry])%list in
  let mt := fst (Merkle.add_leaf _hash (_merkle_tree L) (to_hashable_json entry)) in
  ({| _logs := logs; _merkle_tree := mt; last_event_id := Some (id entry) |}, entry).

(** [log_action] when [entry.to_hashable_json()] raises. [ActionLog]
    accepts any object in [input_params] and [output_result]
    ([Dict[str, Any]], [Any]), but [model_dump(mode='json')] raises
    [PydanticSerializationError] on one it cannot serialize (an
    [object()], say). By then the entry is appended (line 51) and
    [last_event_id] set (line 52); [add_leaf] (line 55) is not reached.
    [value] holds no such object: [params] and [result0] stand for the
    fields as stored. *)
Definition log_action_unserializable (fr : fresh) (L : VeritasLogger) (tool_name0 : string)
           (params : list (string * value)) (result0 : value) (event_type0 : string)
           (basis_id0 : option string) : VeritasLogger * result ActionLog :=
  let entry := {| id := fresh_id fr; basis_id := basis_id0; timestamp := fresh_time fr;
                  event_type := event_type0; tool_name := tool_name0;
                  input_params := params; output_result := result0 |} in
  let logs := (_logs L ++ [entry])%list in
  ({| _logs := logs; _merkle_tree := _merkle_tree L; last_event_id := Some (id entry) |},
   Exc "PydanticSerializationError").

(** [observe(source, query, result)] *)
Definition observe (fr : fresh) (L : VeritasLogger) (source : string)
           (query : list (string * value)) (result0 : value) : VeritasLogger * string :=
  let (L', e) := log_action fr L source query result0 "OBSERVATION" None in (L', id e).

(** [act(tool, params, result, basis_id)] *)
Definition act (fr : fresh) (L : VeritasLogger) (tool : string)
           (params : list (string * value)) (result0 : value) (basis : string) : VeritasLogger * string :=
  let (L', e) := log_action fr L tool params result0 "ACTION" (Some basis) in (L', id e).

(** [export_proofs(filepath)]: the document given to [json.dump]. The file
    is read back by [json.load] (in [cli.py]) before verification, which
    gives the same dicts, lists, strings, numbers and [None]s back; the
    document below is therefore also what [verify_session] receives. The
    [timestamp] key holds [time.time()] at export ([now]). *)
Definition export_proofs (now : string) (L : VeritasLogger) : list (string * value) :=
  [("session_root", VStr (get_current_root L));
   ("event_count", VInt (Z.of_nat (List.length (_logs L))));
   ("timestamp", VFloat now);
   ("logs", VList (map model_dump (_logs L)))].

End WithHash.
End Logger.

(* ------------------------------------------------------------------ *)
(** ** [VeritasLogger.wrap] and [VeritasAgent.execute_action] *)

Module Wrap.
Import Logger.

(** What [wrapper] needs from the Python objects it is handed: [str(x)]
    ([None] when the object's [__str__] raises), pydantic's validation of a
    value for the [Optional[str]] field [basis_id] ([None] on a
    [ValidationError]), and the [str]-or-[None] object for a given
    [Optional[str]]. *)
Class PyObject (obj : Type) := {
  py_str_obj : obj -> option string;
  as_optional_str : obj -> option (option string);
  of_optional_str : option string -> obj
}.

#[export] Instance value_PyObject : PyObject value := {
  py_str_obj v := Some (Json.py_str v);
  as_optional_str v := match v with VNone => Some None | VStr s => Some (Some s) | _ => None end;
  of_optional_str o := match o with Some s => VStr s | None => VNone end
}.

Section WithObjects.
Context {obj : Type} `{PyObject obj}.
Variable _hash : string -> string.

(** A wrapped Python callable, [f( *args, **kwargs)]. *)
Definition callable := list obj -> list (string * obj) -> result obj.

(** [kwargs.pop(k, None)] *)
Definition kwargs_pop (k : string) (kwargs : list (string * obj)) : obj * list (string * obj) :=
  (match find (fun kv => String.eqb (fst kv) k) kwargs with
   | Some kv => snd kv
   | None => of_optional_str None
   end,
   filter (fun kv => negb (String.eqb (fst kv) k)) kwargs).

Fixpoint str_all (xs : list obj) : option (list string) :=
  match xs with
  | [] => Some []
  | x :: rest =>
      match py_str_obj x, str_all rest with
      | Some s, Some ss => Some (s :: ss)
      | _, _ => None
      end
  end.

Fixpoint str_all_kv (kvs : list (string * obj)) : option (list (string * string)) :=
  match kvs with
  | [] => Some []
  | (k, v) :: rest =>
      match py_str_obj v, str_all_kv rest with
      | Some s, Some ss => Some ((k, s) :: ss)
      | _, _ => None
      end
  end.

(** The closure [wrapper( *args, **kwargs)] built by [wrap]: it returns the
    logger state afterwards and the call's outcome. *)
Definition wrapper (name event_type0 : string) (f : callable) (fr : fresh)
           (L : VeritasLogger) (args : list obj) (kwargs : list (string * obj))
  : VeritasLogger * result obj :=
  let (basis, kwargs') := kwargs_pop "basis_id" kwargs in
  let params :=
    match str_all args, str_all_kv kwargs' with
    | Some a, Some k =>
        [("args", VList (map VStr a));
         ("kwargs", VDict (map (fun kv => (fst kv, VStr (snd kv))) k))]
    | _, _ => [("args", VStr "unserializable"); ("kwargs", VStr "unserializable")]
    end in
  match f args kwargs' with
  | Exc e => (L, Exc e)
  | Ok r =>
      let res_serializable :=
        match py_str_obj r with Some s => s | None => "unserializable_result" end in
      match as_optional_str basis with
      | None => (L, Exc "ValidationError")
      | Some b =>
          (fst (log_action _hash fr L name params (VStr res_serializable) event_type0 b), Ok r)
      end
  end.

(** [wrap(func, tool_name=..., event_type=...)]; [f_name] is
    [func.__name__]. *)
Definition wrap (f : callable) (f_name : string) (tool_name0 : option string)
           (event_type0 : string) :=
  let name := match tool_name0 with
              | Some t => if truthy (VStr t) then t else f_name
              | None => f_name
              end in
  wrapper name event_type0 f.

(** [VeritasAgent.execute_action(tool_name, func, *args, **kwargs)]: the
    wrapper is a plain function, so the synchronous branch is taken; a
    caller's own [basis_id] keyword is a duplicate keyword ([TypeError]). *)
Definition execute_action (fr : fresh) (L : VeritasLogger) (tool_name0 : string)
           (func : callable) (f_name : string) (args : list obj)
           (kwargs : list (string * obj)) : VeritasLogger * result obj :=
  let basis := last_event_id L in
  if existsb (fun kv => String.eqb (fst kv) "basis_id") kwargs then (L, Exc "TypeError")
  else wrap func f_name (Some tool_name0) "ACTION" fr L args
            (("basis_id", of_optional_str basis) :: kwargs).

End WithObjects.
End Wrap.

(* ------------------------------------------------------------------ *)
(** ** [verifier.py]: [VeritasVerifier.verify_session] *)

Module Verifier.

Definition bind {A B : Type} (r : result A) (k : A -> result B) : result B :=
  match r with Ok a => k a | Exc e => Exc e end.
Local Notation "x <- r ;; k" := (bind r (fun x => k)) (at level 61, r at next level, right associativity).

(** [==] on the hashable JSON values ([True == 1] included; a float is
    compared with a float by its [repr], and is never equal to an [int]). *)
Definition py_eq (a b : value) : bool :=
  match a, b with
  | VNone, VNone => true
  | VStr x, VStr y => String.eqb x y
  | VInt x, VInt y => Z.eqb x y
  | VBool x, VBool y => Bool.eqb x y
  | VBool x, VInt y | VInt y, VBool x => Z.eqb (if x then 1 else 0)%Z y
  | VFloat x, VFloat y => String.eqb x y
  | _, _ => false
  end.

Definition hashable (v : value) : bool :=
  match v with VList _ | VDict _ => false | _ => true end.

(** [d.get(k)]; [AttributeError] when [d] is not a dict. *)
Definition dget (k : string) (v : value) : result value :=
  match v with
  | VDict kvs => Ok (match assoc_get k kvs with Some x => x | None => VNone end)
  | _ => Exc "AttributeError"
  end.

(** [d[k]] for a string key. *)
Definition getitem (k : string) (v : value) : result value :=
  match v with
  | VDict kvs => match assoc_get k kvs with Some x => Ok x | None => Exc "KeyError" end
  | _ => Exc "TypeError"
  end.

(** [len(v)] *)
Definition py_len (v : value) : result nat :=
  match v with
  | VList xs => Ok (List.length xs)
  | VStr s => Ok (String.length s)
  | VDict kvs => Ok (List.length kvs)
  | _ => Exc "TypeError"
  end.

(** [v[i]] for [0 <= i < len(v)]; a JSON dict has no integer keys. *)
Definition getindex (i : nat) (v : value) : result value :=
  match v with
  | VList xs => match nth_error xs i with Some x => Ok x | None => Exc "IndexError" end
  | VStr s => match String.get i s with
              | Some c => Ok (VStr (String c EmptyString))
              | None => Exc "IndexError"
              end
  | VDict _ => Exc "KeyError"
  | _ => Exc "TypeError"
  end.

(** [v[:8]] *)
Definition slice8 (v : value) : result value :=
  match v with
  | VStr s => Ok (VStr (substring 0 8 s))
  | VList xs => Ok (VList (firstn 8 xs))
  | VDict _ => Exc "KeyError"
  | _ => Exc "TypeError"
  end.

Definition fmt (v : value) : string := Json.py_str v.
Definition fmt_nat (n : nat) : string := Json.nat_to_string n.

Section WithHash.
Variable _hash : string -> string.

(** Step 1: the loop that re-builds the tree and compares each row with
    [leaf_hashes]; it carries [(tree, row_integrity_failed, details)]. *)
Fixpoint row_loop (claimed_leaves : value) (i : nat) (logs : list value)
         (tree : Merkle.MerkleTree) (failed : bool) (details : list string)
  : result (Merkle.MerkleTree * bool * list string) :=
  match logs with
  | [] => Ok (tree, failed, details)
  | log_entry :: rest =>
      let hashable_data := Json.dumps log_entry in
      let calculated_leaf := _hash hashable_data in
      let tree' := fst (Merkle.add_leaf _hash tree hashable_data) in
      if truthy claimed_leaves then
        n <- py_len claimed_leaves ;;
        if Nat.ltb i n then
          expected_leaf <- getindex i claimed_leaves ;;
          if negb (py_eq (VStr calculated_leaf) expected_leaf) then
            tn <- dget "tool_name" log_entry ;;
            e8 <- slice8 expected_leaf ;;
            row_loop claimed_leaves (S i) rest tree' true
              (app details ["[red]TAMPER DETECTED[/red] in Log #" ++ fmt_nat i ++ " (" ++ fmt tn ++ ")";
                           "   Expected: " ++ fmt e8 ++ "...";
                           "   Found:    " ++ substring 0 8 calculated_leaf ++ "..."])
          else
            tn <- dget "tool_name" log_entry ;;
            row_loop claimed_leaves (S i) rest tree' failed
              (app details ["[green]Verified[/green] Log #" ++ fmt_nat i ++ ": " ++ fmt tn])
        else row_loop claimed_leaves (S i) rest tree' failed details
      else row_loop claimed_leaves (S i) rest tree' failed details
  end.

(** Step 2 (roots): [calculated_root != claimed_root]. *)
Definition root_check (calculated_root : option string) (claimed_root : value)
           (details : list string) : result (bool * list string) :=
  let calc := match calculated_root with Some r => VStr r | None => VNone end in
  if negb (py_eq calc claimed_root) then
    c8 <- slice8 calc ;;
    k8 <- slice8 claimed_root ;;
    Ok (false, app details ["[red]CRITICAL FAILURE:[/red] Merkle Root mismatch!";
                           "   Calculated: " ++ fmt c8 ++ "...";
                           "   Claimed:    " ++ fmt k8 ++ "..."])
  else Ok (true, app details ["Merkle Root verified: " ++ fmt calc]).

(** [event_ids = {log["id"] for log in logs}] *)
Fixpoint event_ids (logs : list value) : result (list value) :=
  match logs with
  | [] => Ok []
  | log :: rest =>
      x <- getitem "id" log ;;
      if hashable x then (xs <- event_ids rest ;; Ok (x :: xs)) else Exc "TypeError"
  end.

(** Step 3: the evidence-chaining loop; it carries [(valid_chain, details)]. *)
Fixpoint chain_loop (ids : list value) (i : nat) (logs : list value)
         (valid_chain : bool) (details : list string) : result (bool * list string) :=
  match logs with
  | [] => Ok (valid_chain, details)
  | log :: rest =>
      basis <- dget "basis_id" log ;;
      if truthy basis then
        if negb (hashable basis) then Exc "TypeError"
        else if negb (existsb (py_eq basis) ids) then
          chain_loop ids (S i) rest false
            (app details ["[red]Broken link[/red] at log [" ++ fmt_nat i ++ "]: basis_id "
                         ++ fmt basis ++ " not found in session"])
        else
          tn <- getitem "tool_name" log ;;
          b8 <- slice8 basis ;;
          chain_loop ids (S i) rest valid_chain
            (app details ["Verified link: " ++ fmt tn ++ " -> " ++ fmt b8 ++ "..."])
      else
        et <- dget "event_type" log ;;
        if py_eq et (VStr "ACTION") then
          tn <- getitem "tool_name" log ;;
          chain_loop ids (S i) rest valid_chain
            (app details ["[yellow]Warning:[/yellow] Action " ++ fmt tn ++ " has no linked observation"])
        else chain_loop ids (S i) rest valid_chain details
  end.

Definition get_or (k : string) (default : value) (d : list (string * value)) : value :=
  match assoc_get k d with Some v => v | None => default end.

(** [verify_session(proof_data)] returning [(is_valid, message, details)].
    A truthy [logs] that is not a list (a string, a dict, a number) makes the
    Python code raise at [log["id"]] at the latest. *)
Definition verify_session (proof_data : list (string * value))
  : result (bool * string * list string) :=
  let logs := get_or "logs" (VList []) proof_data in
  let claimed_root := get_or "session_root" VNone proof_data in
  let claimed_leaves := get_or "leaf_hashes" (VList []) proof_data in
  if negb (truthy logs) then Ok (false, "No logs found in proof file", [])
  else
    match logs with
    | VList xs =>
        r1 <- row_loop claimed_leaves 0 xs (Merkle.init _hash None) false [] ;;
        let '(tree, row_integrity_failed, details1) := r1 in
        r2 <- root_check (Merkle.get_root tree) claimed_root details1 ;;
        let '(root_ok, details2) := r2 in
        let valid_root := root_ok && negb row_integrity_failed in
        ids <- event_ids xs ;;
        r3 <- chain_loop ids 0 xs true details2 ;;
        let '(valid_chain, details3) := r3 in
        let is_valid := valid_root && valid_chain in
        Ok (is_valid,
            if is_valid then "Session integrity verified"
            else "Session integrity verification FAILED",
            details3)
    | _ => Exc "TypeError"
    end.

End WithHash.
End Verifier.


(* ------------------------------------------------------------------ *)
(** ** Logger states and what the chain check accepts *)

Module Session.
Import Logger.

(** The states a [VeritasLogger] reaches: a fresh logger, then any sequence
    of [log_action] calls ([observe], [act], [wrap] and the agent all record
    through it). *)
Inductive reachable (h : string -> string) : VeritasLogger -> Prop :=
| reach_new : reachable h (new_logger h)
| reach_log (L : VeritasLogger) (fr : fresh) (tn : string) (params : list (string * value))
    (res : value) (et : string) (b : option string) :
    reachable h L -> reachable h (fst (log_action h fr L tn params res et b)).

(** The states a [VeritasLogger] reaches when its caller may also catch
    the exception of a [log_action] whose entry cannot be serialized,
    paired with the entries whose call completed, in order. *)
Inductive reachable_calls (h : string -> string) : VeritasLogger -> list ActionLog -> Prop :=
| calls_new : reachable_calls h (new_logger h) []
| calls_log (L : VeritasLogger) (done : list ActionLog) (fr : fresh) (tn : string)
    (params : list (string * value)) (res : value) (et : string) (b : option string) :
    reachable_calls h L done ->
    reachable_calls h (fst (log_action h fr L tn params res et b))
                    (done ++ [snd (log_action h fr L tn params res et b)])
| calls_raise (L : VeritasLogger) (done : list ActionLog) (fr : fresh) (tn : string)
    (params : list (string * value)) (res : value) (et : string) (b : option string) :
    reachable_calls h L done ->
    reachable_calls h (fst (log_action_unserializable fr L tn params res et b)) done.

(** The condition under which the loop of step 3 of [verify_session]
    accepts an event's [basis_id]: absent or empty, or equal to the [id] of
    some event of the session, wherever it is. *)
Definition basis_found_in (ids : list string) (e : ActionLog) : bool :=
  match basis_id e with
  | Some b => String.eqb b "" || existsb (String.eqb b) ids
  | None => true
  end.

(** An event that the loop flags as an action without evidence. *)
Definition unlinked_action (e : ActionLog) : Prop :=
  (basis_id e = None \/ basis_id e = Some "") /\ event_type e = "ACTION".

(** The heads of the detail lines of a broken link and of a warning. *)
Definition broken_tag := "[red]Broken link[/red]".
Definition warning_tag := "[yellow]Warning:[/yellow]".

End Session.

(* ------------------------------------------------------------------ *)
(** ** Inputs for the properties of the code below *)

Module Scenarios.
Import Logger Session.

(** Two different strings with the same digest under [h]. *)
Definition collision (h : string -> string) : Prop := exists x y, x <> y /\ h x = h y.

(** The export of [L] with its last log entry written a second time (a
    forged file: [session_root] and [event_count] are the session's). *)
Definition export_repeating_last (now : string) (L : VeritasLogger)
           (e : ActionLog) : list (string * value) :=
  [("session_root", VStr (get_current_root L));
   ("event_count", VInt (Z.of_nat (List.length (_logs L))));
   ("timestamp", VFloat now);
   ("logs", VList (map model_dump (_logs L ++ [last (_logs L) e])%list))].

(** A one-log document, checked with the identity as hash. *)
Definition sample_doc : list (string * value) :=
  [("logs", VList [VDict [("id", VStr "e1"); ("basis_id", VStr "e1"); ("tool_name", VStr "t")]]);
   ("session_root", VStr (Json.dumps (VDict [("id", VStr "e1"); ("basis_id", VStr "e1"); ("tool_name", VStr "t")])))].

(** A session of three events: two observations and an action. *)
Definition sample_session (h : string -> string) : VeritasLogger :=
  let L1 := fst (log_action h {| fresh_id := "o1"; fresh_time := "1.0" |} (new_logger h)
                   "price_feed" [] (VInt 3000) "OBSERVATION" None) in
  let L2 := fst (log_action h {| fresh_id := "o2"; fresh_time := "2.0" |} L1
                   "news" [] (VStr "calm") "OBSERVATION" None) in
  fst (log_action h {| fresh_id := "a1"; fresh_time := "3.0" |} L2
         "swap" [] (VStr "done") "ACTION" (Some "o1")).

End Scenarios.

(* ================================================================== *)
(** * Properties *)

Ltac div2_facts x :=
  pose proof (Nat.div_mod_eq x 2); pose proof (Nat.mod_upper_bound x 2 ltac:(lia)).

Lemma parity_cases (i : nat) :
  (Nat.odd i = true /\ i = 2 * Nat.div i 2 + 1) \/ (Nat.odd i = false /\ i = 2 * Nat.div i 2).
Proof.
  destruct (Nat.Even_or_Odd i) as [[k Hk] | [k Hk]]; div2_facts i.
  - right. subst i. split; [apply Nat.odd_even | lia].
  - left. subst i. split; [apply Nat.odd_odd | lia].
Qed.

Lemma ltb_SS (x y : nat) : Nat.ltb (S (S x)) (S (S y)) = Nat.ltb x y.
Proof. reflexivity. Qed.

Module MerkleFacts.
Import Merkle.

Section WithHash.
Variable h : string -> string.

Lemma next_level_length (l : list string) :
  List.length (next_level h l) = Nat.div (List.length l + 1) 2.
Proof.
  enough (H : forall n l, List.length l <= n ->
                List.length (next_level h l) = Nat.div (List.length l + 1) 2)
    by (apply (H (List.length l)); lia).
  clear l. intros n. induction n as [|n IH]; intros l Hle.
  - destruct l; simpl in *; [reflexivity | lia].
  - destruct l as [|a [|b t]]; cbn [next_level List.length] in *; try reflexivity.
    rewrite IH by lia.
    div2_facts (List.length t + 1). div2_facts (S (S (List.length t)) + 1). lia.
Qed.

Lemma next_level_nth (l : list string) (j : nat) :
  j < List.length (next_level h l) ->
  nth j (next_level h l) ""
  = h (nth (2 * j) l "" ++
       (if Nat.ltb (2 * j + 1) (List.length l) then nth (2 * j + 1) l "" else nth (2 * j) l "")).
Proof.
  enough (H : forall n l j, List.length l <= n -> j < List.length (next_level h l) ->
    nth j (next_level h l) ""
    = h (nth (2 * j) l "" ++
         (if Nat.ltb (2 * j + 1) (List.length l) then nth (2 * j + 1) l "" else nth (2 * j) l "")))
    by (apply (H (List.length l)); lia).
  clear l j. intros n. induction n as [|n IH]; intros l j Hle Hj.
  - destruct l; simpl in *; lia.
  - destruct l as [|a [|b t]]; cbn [next_level List.length] in Hj, Hle |- *; try lia.
    + destruct j; [reflexivity | lia].
    + destruct j as [|j]; [reflexivity |].
      replace (2 * S j) with (S (S (2 * j))) by lia.
      replace (S (S (2 * j)) + 1) with (S (S (2 * j + 1))) by lia.
      rewrite ltb_SS. cbn [nth]. apply IH; lia.
Qed.

Lemma next_level_not_nil (l : list string) : l <> [] -> next_level h l <> [].
Proof. destruct l as [|a [|b t]]; simpl; congruence. Qed.

Lemma build_levels_not_nil (f : nat) (l : list string) : build_levels h f l <> [].
Proof. destruct f; simpl; [congruence | destruct (Nat.ltb 1 _); congruence]. Qed.

Lemma last_build_levels_not_nil (f : nat) (l : list string) :
  l <> [] -> last (build_levels h f l) [] <> [].
Proof.
  revert l. induction f as [|f IH]; intros l Hl; simpl; [exact Hl |].
  destruct (Nat.ltb 1 (List.length l)); [| exact Hl].
  pose proof (build_levels_not_nil f (next_level h l)) as Hne.
  destruct (build_levels h f (next_level h l)) as [|l0 l1] eqn:E; [congruence |].
  change (last (l0 :: l1) [] <> []). rewrite <- E. apply IH, next_level_not_nil, Hl.
Qed.

(** One step of [get_proof]/[verify_proof] goes from a node to its parent. *)
Lemma proof_step (l : list string) (i : nat) :
  i < List.length l ->
  (if String.eqb (if Nat.odd i then "left" else "right") "left"
   then h ((if Nat.ltb (if Nat.odd i then i - 1 else i + 1) (List.length l)
            then nth (if Nat.odd i then i - 1 else i + 1) l "" else nth i l "") ++ nth i l "")
   else h (nth i l "" ++ (if Nat.ltb (if Nat.odd i then i - 1 else i + 1) (List.length l)
            then nth (if Nat.odd i then i - 1 else i + 1) l "" else nth i l "")))
  = nth (Nat.div i 2) (next_level h l) "".
Proof.
  intros Hi.
  rewrite next_level_nth by (rewrite next_level_length; div2_facts i;
                              div2_facts (List.length l + 1); lia).
  destruct (parity_cases i) as [[Ho Hi2] | [Ho Hi2]]; rewrite Ho; simpl String.eqb; cbv iota.
  - set (q := Nat.div i 2) in *.
    assert (A : i - 1 = 2 * q) by lia. assert (B : 2 * q + 1 = i) by lia.
    rewrite A, B, (proj2 (Nat.ltb_lt (2 * q) _)), (proj2 (Nat.ltb_lt i _)) by lia.
    reflexivity.
  - rewrite <- Hi2. reflexivity.
Qed.

Lemma fold_proof_levels (f : nat) (l : list string) (i : nat) :
  i < List.length l -> List.length l <= S f ->
  fold_proof h (nth i l "") (proof_levels (removelast (build_levels h f l)) i)
  = nth 0 (last (build_levels h f l) []) "".
Proof.
  revert l i. induction f as [|f IH]; intros l i Hi Hf.
  - simpl. replace i with 0 by lia. reflexivity.
  - cbn [build_levels]. destruct (Nat.ltb 1 (List.length l)) eqn:E.
    + apply Nat.ltb_lt in E.
      pose proof (build_levels_not_nil f (next_level h l)) as Hne.
      destruct (build_levels h f (next_level h l)) as [|l0 l1] eqn:Eb; [congruence |].
      change (removelast (l :: l0 :: l1)) with (l :: removelast (l0 :: l1)).
      change (last (l :: l0 :: l1) []) with (last (l0 :: l1) []).
      rewrite <- Eb. cbn [proof_levels].
      rewrite (proj2 (Nat.leb_gt _ _) Hi). cbn [fold_proof position data].
      rewrite proof_step by exact Hi.
      pose proof (next_level_length l).
      div2_facts i. div2_facts (List.length l + 1).
      apply IH; lia.
    + apply Nat.ltb_ge in E. simpl. replace i with 0 by lia. reflexivity.
Qed.

Lemma get_root_init (lvs : list string) :
  lvs <> [] ->
  get_root (init h (Some lvs))
  = Some (nth 0 (last (build_levels h (List.length lvs) (map h lvs)) []) "").
Proof.
  intros Hne. unfold get_root, init, _build. cbn [tree].
  destruct lvs as [|a rest]; [congruence |].
  pose proof (build_levels_not_nil (List.length (a :: rest)) (map h (a :: rest))) as Hb.
  destruct (build_levels h (List.length (a :: rest)) (map h (a :: rest))) eqn:E; [congruence |].
  rewrite <- E.
  pose proof (last_build_levels_not_nil (List.length (a :: rest)) (map h (a :: rest))) as Hl.
  destruct (last (build_levels h _ _) []); [exfalso; apply Hl; simpl; congruence | reflexivity].
Qed.

Lemma verify_get_proof_complete (lvs : list string) (i : nat) :
  i < List.length lvs ->
  verify_proof h (nth i lvs "") (get_proof (init h (Some lvs)) i) (get_root (init h (Some lvs))) = true.
Proof.
  intros Hi.
  assert (Hne : lvs <> []) by (destruct lvs; simpl in Hi; [lia | congruence]).
  rewrite get_root_init by exact Hne. unfold verify_proof.
  apply String.eqb_eq.
  unfold get_proof, init, _build. cbn [tree].
  destruct lvs as [|a rest]; [congruence |].
  pose proof (build_levels_not_nil (List.length (a :: rest)) (map h (a :: rest))) as Hb.
  destruct (build_levels h (List.length (a :: rest)) (map h (a :: rest))) eqn:E; [congruence |].
  rewrite <- E.
  replace (h (nth i (a :: rest) "")) with (nth i (map h (a :: rest)) "").
  - apply fold_proof_levels; rewrite length_map; lia.
  - rewrite (nth_indep _ "" (h "")) by (rewrite length_map; exact Hi).
    apply map_nth.
Qed.

Lemma string_length_append (a b : string) : String.length (a ++ b) = String.length a + String.length b.
Proof. induction a; simpl; congruence. Qed.

Lemma append_cancel_l (s a b : string) : s ++ a = s ++ b -> a = b.
Proof. induction s as [|c s IH]; simpl; [auto | intros E; injection E; auto]. Qed.

Lemma append_cancel_r (a b s : string) : a ++ s = b ++ s -> a = b.
Proof.
  revert b. induction a as [|c a IH]; intros [|d b] E; simpl in E; auto.
  - apply (f_equal String.length) in E. simpl in E. rewrite string_length_append in E. lia.
  - apply (f_equal String.length) in E. simpl in E. rewrite string_length_append in E. lia.
  - injection E as -> E. f_equal. apply IH, E.
Qed.

Lemma hash_eq_or (x y : string) : h x = h y -> x = y \/ Scenarios.collision h.
Proof.
  intros E. destruct (string_dec x y) as [D|D]; [left; exact D | right; exists x, y; auto].
Qed.

(** Two starting hashes that the same proof folds to the same value are
    equal, unless the hash has a collision. *)
Lemma fold_proof_eq_or (p : list proof_node) (c1 c2 : string) :
  fold_proof h c1 p = fold_proof h c2 p -> c1 = c2 \/ Scenarios.collision h.
Proof.
  revert c1 c2. induction p as [|n p IH]; intros c1 c2 E; [left; exact E |].
  cbn [fold_proof] in E. destruct (IH _ _ E) as [E'|C]; [| right; exact C].
  destruct (String.eqb (position n) "left"); destruct (hash_eq_or _ _ E') as [E''|C];
    try (right; exact C); left;
    [apply append_cancel_l in E'' | apply append_cancel_r in E'']; exact E''.
Qed.


(** Calling [add_leaf] once per element gives the tree built at once. *)
Lemma add_leaf_fold (l p : list string) :
  fold_left (fun t d => fst (add_leaf h t d)) l {| leaves := p; tree := _build h p |}
  = {| leaves := (p ++ l)%list; tree := _build h (p ++ l) |}.
Proof.
  revert p. induction l as [|d l IH]; intros p.
  - rewrite app_nil_r. reflexivity.
  - cbn [fold_left]. unfold add_leaf. cbn [fst leaves].
    rewrite IH, <- app_assoc. reflexivity.
Qed.

Lemma build_levels_head (f : nat) (l : list string) : nth 0 (build_levels h f l) [] = l.
Proof. destruct f; simpl; [reflexivity | destruct (Nat.ltb 1 _); reflexivity]. Qed.

Lemma build_levels_next (f : nat) (l : list string) (k : nat) :
  S k < List.length (build_levels h f l) ->
  nth (S k) (build_levels h f l) [] = next_level h (nth k (build_levels h f l) []).
Proof.
  revert l k. induction f as [|f IH]; intros l k Hk; cbn [build_levels] in *.
  - simpl in Hk. lia.
  - destruct (Nat.ltb 1 (List.length l)); cbn [List.length] in Hk; [| lia].
    destruct k as [|k].
    + cbn [nth]. apply build_levels_head.
    + cbn [nth]. apply IH. lia.
Qed.

Lemma build_levels_top (f : nat) (l : list string) :
  l <> [] -> List.length l <= S f -> List.length (last (build_levels h f l) []) = 1.
Proof.
  revert l. induction f as [|f IH]; intros l Hne Hf; cbn [build_levels].
  - simpl. destruct l; [congruence | simpl in *; lia].
  - destruct (Nat.ltb 1 (List.length l)) eqn:E.
    + apply Nat.ltb_lt in E.
      pose proof (build_levels_not_nil f (next_level h l)) as Hb.
      destruct (build_levels h f (next_level h l)) as [|l0 l1] eqn:Eb; [congruence |].
      change (last (l :: l0 :: l1) []) with (last (l0 :: l1) []). rewrite <- Eb.
      apply IH; [apply next_level_not_nil, Hne |].
      rewrite next_level_length. div2_facts (List.length l + 1). lia.
    + apply Nat.ltb_ge in E. simpl. destruct l; [congruence | simpl in *; lia].
Qed.

Lemma next_level_range (l : list string) (x : string) :
  In x (next_level h l) -> exists s, x = h s.
Proof.
  revert l x. fix IH 1. intros [|a [|b rest]] x; cbn [next_level In].
  - intros [].
  - intros [<-|[]]. exists (a ++ a). reflexivity.
  - intros [<-|Hin]; [exists (a ++ b); reflexivity | exact (IH rest x Hin)].
Qed.

Lemma build_levels_range (f : nat) (l : list string) :
  (forall x, In x l -> exists s, x = h s) ->
  forall lv x, In lv (build_levels h f l) -> In x lv -> exists s, x = h s.
Proof.
  revert l. induction f as [|f IH]; intros l Hl lv x Hlv Hx; cbn [build_levels] in Hlv.
  - destruct Hlv as [<-|[]]. auto.
  - destruct (Nat.ltb 1 (List.length l)).
    + destruct Hlv as [<-|Hlv]; [auto |].
      exact (IH (next_level h l) (next_level_range l) lv x Hlv Hx).
    + destruct Hlv as [<-|[]]. auto.
Qed.

Lemma last_In_ne {A : Type} (l : list A) (d : A) : l <> [] -> In (last l d) l.
Proof.
  induction l as [|a l IH]; [congruence |]. intros _.
  destruct l as [|b l]; [left; reflexivity |]. right. apply IH. discriminate.
Qed.

Lemma get_root_range (lvs : list string) (r : string) :
  get_root (init h (Some lvs)) = Some r -> exists s, r = h s.
Proof.
  unfold get_root, init, _build. cbn [tree].
  destruct lvs as [|a rest]; [discriminate |].
  destruct (build_levels h (List.length (a :: rest)) (map h (a :: rest))) as [|lv0 lvs'] eqn:E;
    [discriminate |].
  intros Hr. rewrite <- E in Hr.
  assert (Hin : In (last (build_levels h (List.length (a :: rest)) (map h (a :: rest))) [])
                   (build_levels h (List.length (a :: rest)) (map h (a :: rest))))
    by (apply last_In_ne; rewrite E; discriminate).
  destruct (last (build_levels h _ _) []) as [|r0 lv] eqn:El; [discriminate |].
  cbn [hd_error] in Hr. injection Hr as <-.
  refine (build_levels_range _ _ _ _ _ Hin (or_introl eq_refl)).
  intros x Hx. apply in_map_iff in Hx. destruct Hx as [y [<- _]]. eauto.
Qed.

End WithHash.
End MerkleFacts.

Module ShaFacts.
Import Sha256.

Lemma fold_round_length (l : list (Z * Z)) (st : list Z) :
  List.length (fold_left round l st) = List.length st.
Proof.
  revert st. induction l as [|kw l IH]; intros st; simpl; [reflexivity |].
  rewrite IH. unfold round.
  destruct st as [|a [|b [|c [|d [|e [|f [|g [|hh [|x t]]]]]]]]]; reflexivity.
Qed.

Lemma fold_compress_length (bs : list (list Z)) (st : list Z) :
  List.length st = 8%nat -> List.length (fold_left compress bs st) = 8%nat.
Proof.
  revert st. induction bs as [|b bs IH]; intros st Hst; simpl; [exact Hst |].
  apply IH. unfold compress. rewrite length_map, length_combine, fold_round_length. lia.
Qed.

Lemma hex_word_length (x : Z) : String.length (hex_word x) = 8%nat.
Proof. reflexivity. Qed.

Lemma hex_concat_length (ds : list Z) :
  String.length (fold_right String.append EmptyString (map hex_word ds)) = (8 * List.length ds)%nat.
Proof.
  induction ds as [|d ds IH]; cbn [map fold_right List.length]; [reflexivity |].
  rewrite MerkleFacts.string_length_append, hex_word_length, IH. lia.
Qed.

End ShaFacts.

(** [hexdigest()] of SHA-256 is always 64 characters long. *)
Lemma sha256_hex_length (s : string) : String.length (sha256_hex s) = 64%nat.
Proof.
  unfold sha256_hex. rewrite ShaFacts.hex_concat_length.
  unfold Sha256.digest. rewrite ShaFacts.fold_compress_length; reflexivity.
Qed.

Lemma sha256_hex_not_empty (s : string) : sha256_hex s <> "".
Proof. intros E. pose proof (sha256_hex_length s) as L. rewrite E in L. discriminate. Qed.

(** Known-answer tests of [sha256_hex] (FIPS 180-2, appendix B). *)
Example sha256_abc :
  sha256_hex "abc" = "ba7816bf8f01cfea414140de5dae2223b00361a396177a9cb410ff61f20015ad".
Proof. vm_compute. reflexivity. Qed.

Example sha256_empty :
  sha256_hex "" = "e3b0c44298fc1c149afbf4c8996fb92427ae41e4649b934ca495991b7852b855".
Proof. vm_compute. reflexivity. Qed.

Example sha256_two_blocks :
  sha256_hex "abcdbcdecdefdefgefghfghighijhijkijkljklmklmnlmnomnopnopq"
  = "248d6a61d20638b8e5c026930c3e6039a33ce45964ff2167f6ecedd419db06c1".
Proof. vm_compute. reflexivity. Qed.

Module SessionFacts.
Import Logger Session Verifier.

Section WithHash.
Variable h : string -> string.

Lemma reachable_tree (L : VeritasLogger) :
  reachable h L -> _merkle_tree L = Merkle.init h (Some (map to_hashable_json (_logs L))).
Proof.
  induction 1 as [|L fr tn params res et b HL IH]; [reflexivity |].
  unfold log_action. cbn [fst _merkle_tree _logs]. rewrite IH.
  unfold Merkle.add_leaf, Merkle.init. cbn [fst Merkle.leaves]. rewrite map_app. reflexivity.
Qed.

Lemma row_loop_no_claims (xs : list value) (i : nat) (t : Merkle.MerkleTree) (f : bool) (d : list string) :
  row_loop h (VList []) i xs t f d
  = Ok (fold_left (fun t x => fst (Merkle.add_leaf h t (Json.dumps x))) xs t, f, d).
Proof.
  revert i t. induction xs as [|x xs IH]; intros i t; [reflexivity |].
  cbn [row_loop truthy]. apply IH.
Qed.

Lemma verifier_tree_from (es : list ActionLog) (p : list string) :
  fold_left (fun t x => fst (Merkle.add_leaf h t (Json.dumps x))) (map model_dump es)
            {| Merkle.leaves := p; Merkle.tree := Merkle._build h p |}
  = Merkle.init h (Some (p ++ map to_hashable_json es)%list).
Proof.
  revert p. induction es as [|e es IH]; intros p.
  - rewrite app_nil_r. reflexivity.
  - cbn [map fold_left]. unfold Merkle.add_leaf. cbn [fst Merkle.leaves].
    rewrite IH, <- app_assoc. reflexivity.
Qed.

Lemma event_ids_export (es : list ActionLog) :
  event_ids (map model_dump es) = Ok (map (fun e => VStr (id e)) es).
Proof. induction es as [|e es IH]; [reflexivity |]. cbn [map event_ids]. simpl. rewrite IH. reflexivity. Qed.

Lemma existsb_py_eq_str (b : string) (ids : list string) :
  existsb (py_eq (VStr b)) (map VStr ids) = existsb (String.eqb b) ids.
Proof. induction ids as [|x ids IH]; simpl; congruence. Qed.

Lemma chain_loop_export (ids : list string) (es : list ActionLog) (i : nat) (v : bool) (d : list string) :
  exists d',
    chain_loop (map VStr ids) i (map model_dump es) v d
    = Ok (v && forallb (basis_found_in ids) es, d ++ d')%list
    /\ ((exists x, In x d' /\ String.prefix broken_tag x = true) <->
        (exists e, In e es /\ basis_found_in ids e = false))
    /\ (forall e, In e es -> unlinked_action e ->
          In ("[yellow]Warning:[/yellow] Action " ++ tool_name e ++ " has no linked observation") d')
    /\ (forall e b, In e es -> basis_id e = Some b -> b <> "" -> In b ids ->
          In ("Verified link: " ++ tool_name e ++ " -> " ++ substring 0 8 b ++ "...") d')
    /\ (forall x, In x d' -> String.prefix warning_tag x = true ->
          exists e, In e es /\ unlinked_action e).
Proof.
  revert i v d. induction es as [|e es IH]; intros i v d.
  - exists []. rewrite app_nil_r, andb_true_r. split; [reflexivity |].
    split; [split; [intros [x [[] _]] | intros [e [[] _]]] |].
    split; [intros e [] |]. split; [intros e b [] |]. intros x [].
  - cbn [map chain_loop].
    assert (Eb : dget "basis_id" (model_dump e)
                 = Ok (match basis_id e with Some b => VStr b | None => VNone end)) by reflexivity.
    assert (Et : dget "event_type" (model_dump e) = Ok (VStr (event_type e))) by reflexivity.
    assert (En : getitem "tool_name" (model_dump e) = Ok (VStr (tool_name e))) by reflexivity.
    rewrite Eb.
    assert (Hunl : unlinked_action e <->
                   (match basis_id e with Some b => String.eqb b "" | None => true end = true
                    /\ String.eqb (event_type e) "ACTION" = true)).
    { unfold unlinked_action. rewrite String.eqb_eq.
      destruct (basis_id e) as [b|]; [rewrite String.eqb_eq |]; intuition congruence. }
    destruct (basis_id e) as [b|] eqn:Hb; [destruct (String.eqb b "") eqn:Hbe |].
    + (* an empty basis_id, treated as an absent one *)
      assert (Htr : truthy (VStr b) = false) by (cbn [truthy]; rewrite Hbe; reflexivity).
      apply String.eqb_eq in Hbe; subst b.
      assert (Hgood : basis_found_in ids e = true) by (unfold basis_found_in; rewrite Hb; reflexivity).
      cbn [bind]. rewrite Htr. rewrite Et. cbn [bind py_eq].
      destruct (String.eqb (event_type e) "ACTION") eqn:Het.
      * rewrite En. cbn [bind].
        destruct (IH (S i) v (app d ["[yellow]Warning:[/yellow] Action " ++ tool_name e ++ " has no linked observation"]))
          as [d'' [Heq [Hbr [Hw [Hv Hwr]]]]].
        exists (("[yellow]Warning:[/yellow] Action " ++ tool_name e ++ " has no linked observation") :: d'').
        try change (fmt (VStr (tool_name e))) with (tool_name e).
        rewrite Heq. split; [cbn [forallb]; rewrite Hgood, <- app_assoc; reflexivity |].
        split; [split |].
        { intros [x [[<-|Hin] Hp]]; [discriminate Hp |].
          destruct Hbr as [Hbr _]. destruct Hbr as [e0 [He0 Hf]]; [eauto |]. eauto using in_cons. }
        { intros [e0 [[<-|Hin] Hf]]; [congruence |].
          destruct Hbr as [_ Hbr]. destruct Hbr as [x [Hx Hp]]; [eauto |]. eauto using in_cons. }
        split; [intros e0 [<-|Hin] Hu; [left; reflexivity | right; auto] |].
        split; [intros e0 b0 [<-|Hin] Hb0 Hne Hin0; [congruence | right; eauto] |].
        intros x [<-|Hin] Hp.
        { exists e. split; [left; reflexivity |]. apply Hunl. auto. }
        { destruct (Hwr x Hin Hp) as [e0 [He0 Hu]]. eauto using in_cons. }
      * destruct (IH (S i) v d) as [d'' [Heq [Hbr [Hw [Hv Hwr]]]]].
        exists d''.
        try change (fmt (VStr (tool_name e))) with (tool_name e).
        rewrite Heq. split; [cbn [forallb]; rewrite Hgood; reflexivity |].
        split; [split |].
        { intros Hx. destruct Hbr as [Hbr _]. destruct (Hbr Hx) as [e0 [He0 Hf]]. eauto using in_cons. }
        { intros [e0 [[<-|Hin] Hf]]; [congruence |]. apply Hbr. eauto. }
        split; [intros e0 [<-|Hin] Hu; [apply Hunl in Hu; destruct Hu; congruence | auto] |].
        split; [intros e0 b0 [<-|Hin] Hb0 Hne Hin0; [congruence | eauto] |].
        intros x Hin Hp. destruct (Hwr x Hin Hp) as [e0 [He0 Hu]]. eauto using in_cons.
    + (* a non-empty basis_id *)
      assert (Htr : truthy (VStr b) = true) by (cbn [truthy]; rewrite Hbe; reflexivity).
      cbn [bind]. rewrite Htr. cbn [hashable negb]. rewrite existsb_py_eq_str.
      destruct (existsb (String.eqb b) ids) eqn:Hex.
      * rewrite En. cbn [bind slice8 negb].
        assert (Hgood : basis_found_in ids e = true) by (unfold basis_found_in; rewrite Hb, Hbe, Hex; reflexivity).
        destruct (IH (S i) v (app d ["Verified link: " ++ tool_name e ++ " -> " ++ substring 0 8 b ++ "..."]))
          as [d'' [Heq [Hbr [Hw [Hv Hwr]]]]].
        exists (("Verified link: " ++ tool_name e ++ " -> " ++ substring 0 8 b ++ "...") :: d'').
        change (fmt (VStr (tool_name e))) with (tool_name e).
        change (fmt (VStr (substring 0 8 b))) with (substring 0 8 b).
        try change (fmt (VStr (tool_name e))) with (tool_name e).
        rewrite Heq. split; [cbn [forallb]; rewrite Hgood, <- app_assoc; reflexivity |].
        split; [split |].
        { intros [x [[<-|Hin] Hp]]; [discriminate Hp |].
          destruct Hbr as [Hbr _]. destruct Hbr as [e0 [He0 Hf]]; [eauto |]. eauto using in_cons. }
        { intros [e0 [[<-|Hin] Hf]]; [congruence |].
          destruct Hbr as [_ Hbr]. destruct Hbr as [x [Hx Hp]]; [eauto |]. eauto using in_cons. }
        split; [intros e0 [<-|Hin] Hu; [apply Hunl in Hu; destruct Hu; congruence | right; auto] |].
        split; [intros e0 b0 [<-|Hin] Hb0 Hne Hin0; [left; congruence | right; eauto] |].
        intros x [<-|Hin] Hp; [discriminate Hp |].
        destruct (Hwr x Hin Hp) as [e0 [He0 Hu]]. eauto using in_cons.
      * cbn [negb].
        assert (Hbad : basis_found_in ids e = false) by (unfold basis_found_in; rewrite Hb, Hbe, Hex; reflexivity).
        destruct (IH (S i) false (app d ["[red]Broken link[/red] at log [" ++ fmt_nat i ++ "]: basis_id " ++ b ++ " not found in session"]))
          as [d'' [Heq [Hbr [Hw [Hv Hwr]]]]].
        exists (("[red]Broken link[/red] at log [" ++ fmt_nat i ++ "]: basis_id " ++ b ++ " not found in session") :: d'').
        change (fmt (VStr b)) with b.
        try change (fmt (VStr (tool_name e))) with (tool_name e).
        rewrite Heq. split; [cbn [forallb]; rewrite Hbad, <- app_assoc, andb_false_l, andb_false_r; reflexivity |].
        split; [split |].
        { intros _. exists e. split; [left; reflexivity | exact Hbad]. }
        { intros _. exists ("[red]Broken link[/red] at log [" ++ fmt_nat i ++ "]: basis_id " ++ b ++ " not found in session").
          split; [left; reflexivity | reflexivity]. }
        split; [intros e0 [<-|Hin] Hu; [apply Hunl in Hu; destruct Hu; congruence | right; auto] |].
        split; [intros e0 b0 [<-|Hin] Hb0 Hne Hin0; [exfalso | right; eauto] |].
        { rewrite Hb in Hb0; injection Hb0 as <-.
          assert (existsb (String.eqb b) ids = true)
            by (apply existsb_exists; exists b; split; [exact Hin0 | apply String.eqb_refl]).
          congruence. }
        intros x [<-|Hin] Hp; [discriminate Hp |].
        destruct (Hwr x Hin Hp) as [e0 [He0 Hu]]. eauto using in_cons.
    + (* no basis_id *)
      assert (Hgood : basis_found_in ids e = true) by (unfold basis_found_in; rewrite Hb; reflexivity).
      cbn [bind truthy]. rewrite Et. cbn [bind py_eq].
      destruct (String.eqb (event_type e) "ACTION") eqn:Het.
      * rewrite En. cbn [bind].
        destruct (IH (S i) v (app d ["[yellow]Warning:[/yellow] Action " ++ tool_name e ++ " has no linked observation"]))
          as [d'' [Heq [Hbr [Hw [Hv Hwr]]]]].
        exists (("[yellow]Warning:[/yellow] Action " ++ tool_name e ++ " has no linked observation") :: d'').
        try change (fmt (VStr (tool_name e))) with (tool_name e).
        rewrite Heq. split; [cbn [forallb]; rewrite Hgood, <- app_assoc; reflexivity |].
        split; [split |].
        { intros [x [[<-|Hin] Hp]]; [discriminate Hp |].
          destruct Hbr as [Hbr _]. destruct Hbr as [e0 [He0 Hf]]; [eauto |]. eauto using in_cons. }
        { intros [e0 [[<-|Hin] Hf]]; [congruence |].
          destruct Hbr as [_ Hbr]. destruct Hbr as [x [Hx Hp]]; [eauto |]. eauto using in_cons. }
        split; [intros e0 [<-|Hin] Hu; [left; reflexivity | right; auto] |].
        split; [intros e0 b0 [<-|Hin] Hb0 Hne Hin0; [congruence | right; eauto] |].
        intros x [<-|Hin] Hp.
        { exists e. split; [left; reflexivity |]. apply Hunl. auto. }
        { destruct (Hwr x Hin Hp) as [e0 [He0 Hu]]. eauto using in_cons. }
      * destruct (IH (S i) v d) as [d'' [Heq [Hbr [Hw [Hv Hwr]]]]].
        exists d''.
        try change (fmt (VStr (tool_name e))) with (tool_name e).
        rewrite Heq. split; [cbn [forallb]; rewrite Hgood; reflexivity |].
        split; [split |].
        { intros Hx. destruct Hbr as [Hbr _]. destruct (Hbr Hx) as [e0 [He0 Hf]]. eauto using in_cons. }
        { intros [e0 [[<-|Hin] Hf]]; [congruence |]. apply Hbr. eauto. }
        split; [intros e0 [<-|Hin] Hu; [apply Hunl in Hu; destruct Hu; congruence | auto] |].
        split; [intros e0 b0 [<-|Hin] Hb0 Hne Hin0; [congruence | eauto] |].
        intros x Hin Hp. destruct (Hwr x Hin Hp) as [e0 [He0 Hu]]. eauto using in_cons.
Qed.

Lemma get_current_root_reachable (L : VeritasLogger) :
  reachable h L -> (forall s, h s <> "") -> _logs L <> [] ->
  Merkle.get_root (_merkle_tree L) = Some (get_current_root L).
Proof.
  intros HL Hh Hne. unfold get_current_root.
  rewrite (reachable_tree L HL) in *.
  destruct (Merkle.get_root (Merkle.init h (Some (map to_hashable_json (_logs L))))) as [r|] eqn:Er.
  - destruct (MerkleFacts.get_root_range h _ _ Er) as [s Hs].
    cbn [truthy]. destruct (String.eqb r "") eqn:E0; [| reflexivity].
    apply String.eqb_eq in E0. exfalso. apply (Hh s). congruence.
  - exfalso. rewrite MerkleFacts.get_root_init in Er; [discriminate |].
    destruct (_logs L); [congruence | discriminate].
Qed.

(** What [verify_session] makes of the export of a reachable, non-empty
    session, for a hash that never returns the empty string. *)
Lemma export_verify (now : string) (L : VeritasLogger) :
  reachable h L -> (forall s, h s <> "") -> _logs L <> [] ->
  let ids := map id (_logs L) in
  let ok := forallb (basis_found_in ids) (_logs L) in
  exists d',
    verify_session h (export_proofs now L)
    = Ok (ok, (if ok then "Session integrity verified" else "Session integrity verification FAILED"),
          ("Merkle Root verified: " ++ get_current_root L) :: d')
    /\ ((exists x, In x d' /\ String.prefix broken_tag x = true) <->
        (exists e, In e (_logs L) /\ basis_found_in ids e = false))
    /\ (forall e, In e (_logs L) -> unlinked_action e ->
          In ("[yellow]Warning:[/yellow] Action " ++ tool_name e ++ " has no linked observation") d')
    /\ (forall e b, In e (_logs L) -> basis_id e = Some b -> b <> "" -> In b ids ->
          In ("Verified link: " ++ tool_name e ++ " -> " ++ substring 0 8 b ++ "...") d')
    /\ (forall x, In x d' -> String.prefix warning_tag x = true ->
          exists e, In e (_logs L) /\ unlinked_action e).
Proof.
  intros HL Hh Hne ids ok.
  pose proof (get_current_root_reachable L HL Hh Hne) as Hroot.
  rewrite (reachable_tree L HL) in Hroot.
  destruct (chain_loop_export ids (_logs L) 0 true ["Merkle Root verified: " ++ get_current_root L])
    as [d' [Heq Hrest]].
  exists d'. split; [| exact Hrest].
  unfold verify_session, export_proofs.
  cbn [get_or assoc_get String.eqb Ascii.eqb Bool.eqb fst snd].
  assert (Htr : truthy (VList (map model_dump (_logs L))) = true)
    by (destruct (_logs L); [congruence | reflexivity]).
  rewrite Htr. cbn [negb]. rewrite row_loop_no_claims. cbn [bind].
  change (Merkle.init h None) with {| Merkle.leaves := []; Merkle.tree := Merkle._build h [] |}.
  rewrite (verifier_tree_from (_logs L) []). cbn [app].
  rewrite Hroot. unfold root_check. cbn [py_eq]. rewrite String.eqb_refl. cbn [negb bind app].
  change (fmt (VStr (get_current_root L))) with (get_current_root L).
  rewrite event_ids_export. cbn [bind].
  replace (map (fun e => VStr (id e)) (_logs L)) with (map VStr ids)
    by (unfold ids; rewrite map_map; reflexivity).
  rewrite Heq. cbn [bind andb negb app]. reflexivity.
Qed.

End WithHash.
End SessionFacts.

(* ================================================================== *)
(** * The claims *)

Module MerkleClaims.
Import Merkle MerkleFacts.

(** C4 (as the code has it): [add_leaf] returns [None], not a digest; what
    it does is append [d] to the leaves and rebuild, so the last digest of
    level 0 is [H(d)]; and the event record [ActionLog] (as dumped) has the
    seven fields below and no [leafHash]. *)
Theorem C4_add_leaf_returns_none (h : string -> string) (t : MerkleTree) (d : string) :
  snd (add_leaf h t d) = VNone
  /\ leaves (fst (add_leaf h t d)) = (leaves t ++ [d])%list
  /\ last (nth 0 (tree (fst (add_leaf h t d))) []) "" = h d
  /\ (forall e, exists kvs, Logger.model_dump e = VDict kvs
        /\ map fst kvs = ["id"; "basis_id"; "timestamp"; "event_type"; "tool_name";
                         "input_params"; "output_result"]).
Proof.
  split; [reflexivity |]. split; [reflexivity |]. split.
  - unfold add_leaf, _build. cbn [fst tree].
    destruct (leaves t ++ [d])%list as [|x xs] eqn:E; [destruct (leaves t); discriminate |].
    rewrite build_levels_head, <- E, map_app. cbn [map]. apply last_last.
  - intros e. eexists. split; reflexivity.
Qed.

(** C4, counterexample: on a fresh tree, [add_leaf("data")] returns [None]
    and not the leaf digest [H("data")]. *)
Lemma C4_add_leaf_not_digest :
  snd (add_leaf sha256_hex (init sha256_hex None) "data") <> VStr (sha256_hex "data").
Proof. cbv [add_leaf snd]. discriminate. Qed.

(** C6 (as the code has it): for [i < N], the proof of leaf [i] verifies
    against the root; a content [x] verifies at index [i] with that proof
    only if [x] is leaf [i] or the hash has a collision. Equal contents at
    two indices verify at both. *)
Theorem C6_proof_sound (h : string -> string) (lvs : list string) (i : nat) :
  i < List.length lvs ->
  verify_proof h (nth i lvs "") (get_proof (init h (Some lvs)) i) (get_root (init h (Some lvs))) = true
  /\ (forall x,
      verify_proof h x (get_proof (init h (Some lvs)) i) (get_root (init h (Some lvs))) = true ->
      x = nth i lvs "" \/ Scenarios.collision h).
Proof.
  intros Hi. pose proof (verify_get_proof_complete h lvs i Hi) as Hok.
  split; [exact Hok |]. intros x Hx.
  unfold verify_proof in *. destruct (get_root (init h (Some lvs))) as [r|]; [| discriminate].
  apply String.eqb_eq in Hok. apply String.eqb_eq in Hx.
  destruct (fold_proof_eq_or h (get_proof (init h (Some lvs)) i) (h x) (h (nth i lvs "")))
    as [E|C]; [congruence | | right; exact C].
  exact (hash_eq_or h _ _ E).
Qed.

(** C6, witness: three leaves, index 2, with SHA-256. *)
Lemma C6_proof_sound_witness :
  2 < List.length ["a"; "b"; "c"]
  /\ verify_proof sha256_hex "c" (get_proof (init sha256_hex (Some ["a"; "b"; "c"])) 2)
       (get_root (init sha256_hex (Some ["a"; "b"; "c"]))) = true
  /\ (forall x, verify_proof sha256_hex x (get_proof (init sha256_hex (Some ["a"; "b"; "c"])) 2)
                  (get_root (init sha256_hex (Some ["a"; "b"; "c"]))) = true ->
                x = "c" \/ Scenarios.collision sha256_hex).
Proof.
  split; [cbn; lia |].
  exact (C6_proof_sound sha256_hex ["a"; "b"; "c"] 2 ltac:(cbn; lia)).
Defined.

(** C6, counterexample: in the tree of ["a"; "a"], the content of leaf 0
    put in place of leaf 1 verifies with leaf 1's proof. *)
Lemma C6_duplicate_content_verifies :
  let t := init sha256_hex (Some ["a"; "a"]) in
  verify_proof sha256_hex (nth 0 ["a"; "a"] "") (get_proof t 1) (get_root t) = true.
Proof. vm_compute. reflexivity. Qed.

(** C7: calling [add_leaf] once per element on a fresh tree gives the tree
    built from the whole list at once: same leaves, same levels, hence the
    same root and the same per-leaf digests [map H l]. *)
Theorem C7_incremental_bulk (h : string -> string) (l : list string) :
  fold_left (fun t d => fst (add_leaf h t d)) l (init h None) = init h (Some l)
  /\ get_root (fold_left (fun t d => fst (add_leaf h t d)) l (init h None)) = get_root (init h (Some l))
  /\ nth 0 (tree (fold_left (fun t d => fst (add_leaf h t d)) l (init h None))) [] = map h l.
Proof.
  assert (E : fold_left (fun t d => fst (add_leaf h t d)) l (init h None) = init h (Some l))
    by exact (add_leaf_fold h l []).
  rewrite E. split; [reflexivity |]. split; [reflexivity |].
  unfold init, _build. cbn [tree]. destruct l as [|a l]; [reflexivity |].
  apply build_levels_head.
Qed.

(** C8: each level above level 0 is [next_level] of the one below; node [j]
    of [next_level] is [H(l[2j] ++ l[2j+1])], with [l[2j]] used twice when
    it is the last node of an odd level; a level of [n] nodes gives
    [(n+1)/2]; the top level is one node; and the roots of [a] and of
    [a; b; c] are [H(a)] and [H(H(H(a)+H(b)) + H(H(c)+H(c)))]. *)
Theorem C8_pairing (h : string -> string) :
  (forall l j, j < List.length (next_level h l) ->
     nth j (next_level h l) ""
     = h (nth (2 * j) l "" ++ (if Nat.ltb (2 * j + 1) (List.length l)
                               then nth (2 * j + 1) l "" else nth (2 * j) l "")))
  /\ (forall l, List.length (next_level h l) = Nat.div (List.length l + 1) 2)
  /\ (forall l k, S k < List.length (_build h l) ->
        nth (S k) (_build h l) [] = next_level h (nth k (_build h l) []))
  /\ (forall l, l <> [] -> nth 0 (_build h l) [] = map h l
                /\ List.length (last (_build h l) []) = 1)
  /\ (forall a, get_root (init h (Some [a])) = Some (h a))
  /\ (forall a b c, get_root (init h (Some [a; b; c])) = Some (h (h (h a ++ h b) ++ h (h c ++ h c)))).
Proof.
  split; [intros l j Hj; apply next_level_nth; exact Hj |].
  split; [exact (next_level_length h) |].
  split; [intros [|a l] k Hk; [cbn in Hk; lia | apply build_levels_next, Hk] |].
  split; [| split; intros; reflexivity].
  intros [|a l] Hne; [congruence |]. unfold _build. split; [apply build_levels_head |].
  apply build_levels_top; [discriminate | rewrite length_map; lia].
Qed.

(** C8, witness: the two parts with a hypothesis, at concrete lists. *)
Lemma C8_pairing_witness :
  nth 1 (next_level sha256_hex ["a"; "b"; "c"]) "" = sha256_hex ("c" ++ "c")
  /\ List.length (last (_build sha256_hex ["a"; "b"; "c"]) []) = 1.
Proof.
  destruct (C8_pairing sha256_hex) as [Hn [_ [_ [Ht _]]]]. split.
  - rewrite (Hn ["a"; "b"; "c"] 1); [reflexivity | cbn; lia].
  - apply (Ht ["a"; "b"; "c"]). discriminate.
Defined.

End MerkleClaims.

Module SessionClaims.
Import Logger Session Verifier SessionFacts.

(** C1: one OBSERVATION recorded by [observe], then one ACTION recorded by
    [act] with the observation's id as [basis_id]: the exported document
    verifies ([valid = true]), the link is reported as verified, and no
    detail is a warning. The observation's id must be non-empty: an empty
    [basis_id] is treated as an absent one. *)
Theorem C1_observe_act_roundtrip (fr1 fr2 : fresh) (now src tool : string)
    (q params : list (string * value)) (r1 r2 : value) :
  fresh_id fr1 <> "" ->
  let o := observe sha256_hex fr1 (new_logger sha256_hex) src q r1 in
  let L2 := fst (act sha256_hex fr2 (fst o) tool params r2 (snd o)) in
  exists msg details,
    verify_session sha256_hex (export_proofs now L2) = Ok (true, msg, details)
    /\ In ("Verified link: " ++ tool ++ " -> " ++ substring 0 8 (snd o) ++ "...") details
    /\ (forall x, In x details -> String.prefix warning_tag x = false).
Proof.
  intros Hid o L2.
  assert (Ho : snd o = fresh_id fr1) by reflexivity. rewrite Ho.
  assert (HL : reachable sha256_hex L2).
  { exact (reach_log _ _ fr2 tool params r2 "ACTION" (Some (snd o))
             (reach_log _ _ fr1 src q r1 "OBSERVATION" None (reach_new _))). }
  set (E1 := {| id := fresh_id fr1; basis_id := None; timestamp := fresh_time fr1;
                event_type := "OBSERVATION"; tool_name := src; input_params := q;
                output_result := r1 |}).
  set (E2 := {| id := fresh_id fr2; basis_id := Some (fresh_id fr1); timestamp := fresh_time fr2;
                event_type := "ACTION"; tool_name := tool; input_params := params;
                output_result := r2 |}).
  assert (Hlogs : _logs L2 = [E1; E2]) by reflexivity.
  destruct (export_verify sha256_hex now L2 HL sha256_hex_not_empty ltac:(rewrite Hlogs; discriminate))
    as [d' [Heq [_ [_ [Hv Hw]]]]].
  revert Heq Hv Hw. rewrite Hlogs. cbn [forallb].
  assert (Hb1 : basis_found_in (map id [E1; E2]) E1 = true) by reflexivity.
  assert (Hb2 : basis_found_in (map id [E1; E2]) E2 = true).
  { unfold basis_found_in, E1, E2. cbn [basis_id id map existsb].
    rewrite String.eqb_refl, orb_true_r. reflexivity. }
  rewrite Hb1, Hb2. cbn [andb]. intros Heq Hv Hw.
  eexists. eexists. split; [exact Heq |]. split.
  - right. apply (Hv E2 (fresh_id fr1)); [right; left; reflexivity | reflexivity | exact Hid | left; reflexivity].
  - intros x [<-|Hx]; [reflexivity |].
    destruct (String.prefix warning_tag x) eqn:Ep; [exfalso | reflexivity].
    destruct (Hw x Hx Ep) as [e [He [Hbe Het]]].
    destruct He as [<-|[<-|[]]]; [discriminate Het |].
    destruct Hbe as [Hbe|Hbe]; [discriminate Hbe | injection Hbe as Hbe; exact (Hid Hbe)].
Qed.

(** C1, witness: ids ["obs-1"] and ["act-1"]. *)
Lemma C1_observe_act_roundtrip_witness :
  fresh_id {| fresh_id := "obs-1"; fresh_time := "1.5" |} <> ""
  /\ let o := observe sha256_hex {| fresh_id := "obs-1"; fresh_time := "1.5" |}
                (new_logger sha256_hex) "price_feed" [("pair", VStr "ETH/USD")] (VInt 3000) in
     let L2 := fst (act sha256_hex {| fresh_id := "act-1"; fresh_time := "2.5" |} (fst o)
                  "trade" [("amount", VInt 1)] (VStr "ok") (snd o)) in
     exists msg details,
       verify_session sha256_hex (export_proofs "3.5" L2) = Ok (true, msg, details)
       /\ In ("Verified link: " ++ "trade" ++ " -> " ++ substring 0 8 (snd o) ++ "...") details
       /\ (forall x, In x details -> String.prefix warning_tag x = false).
Proof.
  split; [discriminate |].
  apply (C1_observe_act_roundtrip {| fresh_id := "obs-1"; fresh_time := "1.5" |}
           {| fresh_id := "act-1"; fresh_time := "2.5" |} "3.5" "price_feed" "trade"
           [("pair", VStr "ETH/USD")] [("amount", VInt 1)] (VInt 3000) (VStr "ok")).
  discriminate.
Defined.

(** C3 (as the code has it): on the export of a recorded session, the chain
    check looks a [basis_id] up among the ids of ALL events of the session,
    wherever they are (a later event, the event itself): the session is
    valid exactly when every event passes [basis_found_in]; a broken-link
    line appears exactly when some event fails it; an ACTION without a
    [basis_id] (or with an empty one) passes it and gets a warning line.
    The export of an empty session is rejected: it has no logs. *)
Theorem C3_chain_policy_any_id (now : string) (L : VeritasLogger) :
  verify_session sha256_hex (export_proofs now (new_logger sha256_hex))
    = Ok (false, "No logs found in proof file", [])
  /\ (reachable sha256_hex L -> _logs L <> [] ->
  let ids := map id (_logs L) in
  exists valid msg details,
    verify_session sha256_hex (export_proofs now L) = Ok (valid, msg, details)
    /\ (valid = true <-> forall e, In e (_logs L) -> basis_found_in ids e = true)
    /\ ((exists x, In x details /\ String.prefix broken_tag x = true) <->
        (exists e, In e (_logs L) /\ basis_found_in ids e = false))
    /\ (forall e, In e (_logs L) -> unlinked_action e ->
          basis_found_in ids e = true
          /\ In ("[yellow]Warning:[/yellow] Action " ++ tool_name e ++ " has no linked observation") details)).
Proof.
  split; [reflexivity |].
  intros HL Hne ids.
  destruct (export_verify sha256_hex now L HL sha256_hex_not_empty Hne) as [d' [Heq [Hbr [Hw _]]]].
  do 3 eexists. split; [exact Heq |]. split; [apply forallb_forall |]. split.
  - split.
    + intros [x [[<-|Hx] Hp]]; [discriminate Hp | apply Hbr; eauto].
    + intros Hex. destruct (proj2 Hbr Hex) as [x [Hx Hp]]. exists x. split; [right; exact Hx | exact Hp].
  - intros e He Hu. split; [| right; exact (Hw e He Hu)].
    unfold basis_found_in. destruct Hu as [[Hb|Hb] _]; rewrite Hb; reflexivity.
Qed.

(** C3, witness: the session of [C1]'s witness. *)
Lemma C3_chain_policy_any_id_witness :
  let L := fst (act sha256_hex {| fresh_id := "act-1"; fresh_time := "2.5" |}
                 (fst (observe sha256_hex {| fresh_id := "obs-1"; fresh_time := "1.5" |}
                         (new_logger sha256_hex) "price_feed" [] (VInt 3000)))
                 "trade" [] (VStr "ok") "obs-1") in
  reachable sha256_hex L /\ _logs L <> []
  /\ exists valid msg details,
       verify_session sha256_hex (export_proofs "3.5" L) = Ok (valid, msg, details)
       /\ (valid = true <-> forall e, In e (_logs L) -> basis_found_in (map id (_logs L)) e = true)
       /\ ((exists x, In x details /\ String.prefix broken_tag x = true) <->
           (exists e, In e (_logs L) /\ basis_found_in (map id (_logs L)) e = false))
       /\ (forall e, In e (_logs L) -> unlinked_action e ->
             basis_found_in (map id (_logs L)) e = true
             /\ In ("[yellow]Warning:[/yellow] Action " ++ tool_name e ++ " has no linked observation") details).
Proof.
  intros L.
  assert (HL : reachable sha256_hex L)
    by exact (reach_log _ _ _ _ _ _ _ _ (reach_log _ _ _ _ _ _ _ _ (reach_new _))).
  assert (Hne : _logs L <> []) by discriminate.
  split; [exact HL |]. split; [exact Hne |].
  exact (proj2 (C3_chain_policy_any_id "3.5" L) HL Hne).
Defined.

(** C3, counterexample: event 0 names event 1 (a later one) as its basis,
    event 1 names itself; the export verifies with no broken link. *)
Lemma C3_forward_and_self_reference_accepted :
  let L0 := fst (log_action sha256_hex {| fresh_id := "ev-0"; fresh_time := "1.0" |}
                  (new_logger sha256_hex) "price_feed" [] (VInt 1) "OBSERVATION" (Some "ev-1")) in
  let L := fst (log_action sha256_hex {| fresh_id := "ev-1"; fresh_time := "2.0" |}
                 L0 "trade" [] (VStr "ok") "ACTION" (Some "ev-1")) in
  match _logs L with
  | [e0; e1] => basis_id e0 = Some (id e1) /\ basis_id e1 = Some (id e1)
  | _ => False
  end
  /\ match verify_session sha256_hex (export_proofs "3.0" L) with
     | Ok (valid, _, details) =>
         valid = true /\ forallb (fun x => negb (String.prefix broken_tag x)) details = true
     | Exc _ => False
     end.
Proof. vm_compute. split; split; reflexivity. Qed.

(** C5: the exported document has exactly the keys [session_root],
    [event_count], [timestamp], [logs], so no [leaf_hashes]; each dumped
    event has exactly the seven [ActionLog] fields, so no [leafHash]; the
    row loop of [verify_session] then compares nothing and adds no detail,
    and re-builds the logger's own tree; and for a non-empty session
    [verify_session] is the root comparison followed by the chain check. *)
Theorem C5_export_shape (h : string -> string) (now : string) (L : VeritasLogger) :
  reachable h L ->
  map fst (export_proofs now L) = ["session_root"; "event_count"; "timestamp"; "logs"]
  /\ assoc_get "leaf_hashes" (export_proofs now L) = None
  /\ (forall e, In e (_logs L) -> exists kvs, model_dump e = VDict kvs
        /\ map fst kvs = ["id"; "basis_id"; "timestamp"; "event_type"; "tool_name";
                         "input_params"; "output_result"])
  /\ row_loop h (get_or "leaf_hashes" (VList []) (export_proofs now L)) 0
       (map model_dump (_logs L)) (Merkle.init h None) false []
     = Ok (_merkle_tree L, false, [])
  /\ (_logs L <> [] ->
      verify_session h (export_proofs now L)
      = bind (root_check (Merkle.get_root (_merkle_tree L)) (VStr (get_current_root L)) [])
          (fun r2 => let '(root_ok, d2) := r2 in
           bind (chain_loop (map (fun e => VStr (id e)) (_logs L)) 0 (map model_dump (_logs L)) true d2)
             (fun r3 => let '(valid_chain, d3) := r3 in
              Ok (root_ok && valid_chain,
                  if root_ok && valid_chain then "Session integrity verified"
                  else "Session integrity verification FAILED", d3)))).
Proof.
  intros HL.
  assert (Hrow : row_loop h (get_or "leaf_hashes" (VList []) (export_proofs now L)) 0
                   (map model_dump (_logs L)) (Merkle.init h None) false []
                 = Ok (_merkle_tree L, false, [])).
  { change (get_or "leaf_hashes" (VList []) (export_proofs now L)) with (VList []).
    rewrite row_loop_no_claims.
    change (Merkle.init h None) with {| Merkle.leaves := []; Merkle.tree := Merkle._build h [] |}.
    rewrite (verifier_tree_from h (_logs L) []), (reachable_tree h L HL). reflexivity. }
  split; [reflexivity |]. split; [reflexivity |].
  split; [intros e _; eexists; split; reflexivity |]. split; [exact Hrow |].
  intros Hne. unfold verify_session.
  change (get_or "logs" (VList []) (export_proofs now L)) with (VList (map model_dump (_logs L))).
  change (get_or "session_root" VNone (export_proofs now L)) with (VStr (get_current_root L)).
  assert (Htr : truthy (VList (map model_dump (_logs L))) = true)
    by (destruct (_logs L); [congruence | reflexivity]).
  rewrite Htr. cbn [negb]. rewrite Hrow. cbn [bind].
  rewrite event_ids_export.
  destruct (root_check (Merkle.get_root (_merkle_tree L)) (VStr (get_current_root L)) [])
    as [[root_ok d2]|ex]; cbn [bind]; [| reflexivity].
  destruct (chain_loop (map (fun e => VStr (id e)) (_logs L)) 0 (map model_dump (_logs L)) true d2)
    as [[vc d3]|ex]; cbn [bind]; [| reflexivity].
  cbn [negb]. rewrite andb_true_r. reflexivity.
Qed.

(** C5, witness: a session of one observation, with SHA-256. *)
Lemma C5_export_shape_witness :
  let L := fst (observe sha256_hex {| fresh_id := "obs-1"; fresh_time := "1.5" |}
                  (new_logger sha256_hex) "price_feed" [] (VInt 3000)) in
  reachable sha256_hex L
  /\ row_loop sha256_hex (get_or "leaf_hashes" (VList []) (export_proofs "2.0" L)) 0
       (map model_dump (_logs L)) (Merkle.init sha256_hex None) false []
     = Ok (_merkle_tree L, false, []).
Proof.
  intros L.
  assert (HL : reachable sha256_hex L) by exact (reach_log _ _ _ _ _ _ _ _ (reach_new _)).
  split; [exact HL |].
  exact (proj1 (proj2 (proj2 (proj2 (C5_export_shape sha256_hex "2.0" L HL))))).
Defined.

(** C10 (as the code has it): an empty tree has no root ([None]); the
    logger's [get_current_root] is a string, ["0x0"] on a new logger, and,
    after [log_action] calls that all completed, on a non-empty log the
    tree's root, a 64-character hex digest. A [log_action] whose entry
    cannot be serialized raises after appending the entry and setting
    [last_event_id], and leaves the tree and [get_current_root] as they
    were: a caller that catches the exception of a first event holds a
    non-empty log whose current root is ["0x0"]. The sentinel is three
    characters wide, not the width of a digest. *)
Theorem C10_current_root_sentinel (L : VeritasLogger) :
  Merkle.get_root (Merkle.init sha256_hex None) = None
  /\ get_current_root (new_logger sha256_hex) = "0x0"
  /\ String.length "0x0" = 3
  /\ (reachable sha256_hex L -> _logs L <> [] ->
      Merkle.get_root (_merkle_tree L) = Some (get_current_root L)
      /\ String.length (get_current_root L) = 64)
  /\ (forall fr tn params res et b,
      let L' := fst (log_action_unserializable fr L tn params res et b) in
      snd (log_action_unserializable fr L tn params res et b) = Exc "PydanticSerializationError"
      /\ (exists e, _logs L' = (_logs L ++ [e])%list /\ id e = fresh_id fr)
      /\ last_event_id L' = Some (fresh_id fr)
      /\ get_current_root L' = get_current_root L)
  /\ (forall fr tn params res et b,
      let L1 := fst (log_action_unserializable fr (new_logger sha256_hex) tn params res et b) in
      _logs L1 <> [] /\ get_current_root L1 = "0x0").
Proof.
  split; [reflexivity |]. split; [reflexivity |]. split; [reflexivity |].
  split.
  - intros HL Hne.
    pose proof (get_current_root_reachable sha256_hex L HL sha256_hex_not_empty Hne) as Hr.
    split; [exact Hr |].
    rewrite (reachable_tree sha256_hex L HL) in Hr.
    destruct (MerkleFacts.get_root_range sha256_hex _ _ Hr) as [s ->].
    apply sha256_hex_length.
  - split.
    + intros fr tn params res et b L'. unfold L', log_action_unserializable. cbn [fst snd _logs last_event_id].
      split; [reflexivity |]. split; [eexists; split; reflexivity |]. split; reflexivity.
    + intros fr tn params res et b L1. unfold L1, log_action_unserializable. cbn [fst _logs].
      split; [discriminate | reflexivity].
Qed.

(** C10, witness: a session of one observation, and a first observation
    whose result cannot be serialized. *)
Lemma C10_current_root_sentinel_witness :
  let L := fst (observe sha256_hex {| fresh_id := "obs-1"; fresh_time := "1.5" |}
                  (new_logger sha256_hex) "price_feed" [] (VInt 3000)) in
  let L1 := fst (log_action_unserializable {| fresh_id := "obs-1"; fresh_time := "1.5" |}
                   (new_logger sha256_hex) "price_feed" [] VNone "OBSERVATION" None) in
  (reachable sha256_hex L /\ _logs L <> []
   /\ Merkle.get_root (_merkle_tree L) = Some (get_current_root L)
   /\ String.length (get_current_root L) = 64)
  /\ (_logs L1 <> [] /\ get_current_root L1 = "0x0").
Proof.
  intros L L1.
  assert (HL : reachable sha256_hex L) by exact (reach_log _ _ _ _ _ _ _ _ (reach_new _)).
  assert (Hne : _logs L <> []) by discriminate.
  split.
  - split; [exact HL |]. split; [exact Hne |].
    exact (proj1 (proj2 (proj2 (proj2 (C10_current_root_sentinel L)))) HL Hne).
  - exact (proj2 (proj2 (proj2 (proj2 (proj2 (C10_current_root_sentinel L)))))
             {| fresh_id := "obs-1"; fresh_time := "1.5" |} "price_feed" [] VNone "OBSERVATION" None).
Defined.

(** C10, counterexample: the value for an empty log and the value for a
    log of one event have different widths; and a first [observe] whose
    result cannot be serialized, once its exception is caught, leaves a
    non-empty log whose current root is the sentinel, not a digest. *)
Lemma C10_sentinel_width_differs :
  String.length (get_current_root (new_logger sha256_hex))
  <> String.length (get_current_root
       (fst (observe sha256_hex {| fresh_id := "obs-1"; fresh_time := "1.5" |}
               (new_logger sha256_hex) "price_feed" [] (VInt 3000))))
  /\ (let L1 := fst (log_action_unserializable {| fresh_id := "obs-1"; fresh_time := "1.5" |}
                       (new_logger sha256_hex) "price_feed" [] VNone "OBSERVATION" None) in
      List.length (_logs L1) = 1 /\ String.length (get_current_root L1) <> 64).
Proof. split; [vm_compute; discriminate | vm_compute; split; [reflexivity | discriminate]]. Qed.

End SessionClaims.

Module WrapClaims.
Import Logger Wrap.

Lemma find_absent {A : Type} (p : A -> bool) (l : list A) :
  existsb p l = false -> find p l = None.
Proof.
  induction l as [|x l IH]; cbn [existsb find]; [reflexivity |].
  destruct (p x); [discriminate | exact IH].
Qed.

Lemma filter_absent {A : Type} (p : A -> bool) (l : list A) :
  existsb p l = false -> filter (fun x => negb (p x)) l = l.
Proof.
  induction l as [|x l IH]; cbn [existsb filter]; [reflexivity |].
  destruct (p x); cbn [negb orb]; [discriminate | intros E; rewrite (IH E); reflexivity].
Qed.

Lemma kwargs_pop_absent (kwargs : list (string * value)) :
  existsb (fun kv => String.eqb (fst kv) "basis_id") kwargs = false -> kwargs_pop "basis_id" kwargs = (VNone, kwargs).
Proof.
  intros E. unfold kwargs_pop. rewrite (find_absent _ _ E), (filter_absent _ _ E). reflexivity.
Qed.

Lemma kwargs_pop_given (b : value) (kwargs : list (string * value)) :
  existsb (fun kv => String.eqb (fst kv) "basis_id") kwargs = false ->
  kwargs_pop "basis_id" (("basis_id", b) :: kwargs) = (b, kwargs).
Proof.
  intros E. unfold kwargs_pop. cbn [find filter fst snd]. rewrite (filter_absent _ _ E). reflexivity.
Qed.

Section WithHash.
Variable h : string -> string.

Lemma wrapper_logs (name et : string) (f : callable) (fr : fresh) (L : VeritasLogger)
    (args : list value) (kwargs kwargs' : list (string * value)) (b : value)
    (ob : option string) (r : value) :
  kwargs_pop "basis_id" kwargs = (b, kwargs') -> f args kwargs' = Ok r ->
  as_optional_str b = Some ob ->
  snd (wrapper h name et f fr L args kwargs) = Ok r
  /\ exists e, _logs (fst (wrapper h name et f fr L args kwargs)) = (_logs L ++ [e])%list
       /\ basis_id e = ob /\ event_type e = et /\ tool_name e = name.
Proof.
  intros Hp Hf Hb. unfold wrapper. rewrite Hp. cbv beta iota. rewrite Hf, Hb.
  split; [reflexivity |]. eexists. split; [reflexivity |]. split; [| split]; reflexivity.
Qed.

(** C2 (as the code has it): when the wrapped callable raises, [wrapper]
    lets the exception through and records nothing, the logger is left as
    it was (no ERROR event is appended). When the callable returns, one event of the wrapper's
    [event_type] is appended and the result is returned. *)
Theorem C2_exception_not_recorded (f : callable) (f_name : string) (tn : option string)
    (et : string) (fr : fresh) (L : VeritasLogger) (args : list value)
    (kwargs : list (string * value)) :
  (forall e, f args (snd (kwargs_pop "basis_id" kwargs)) = Exc e ->
     wrap h f f_name tn et fr L args kwargs = (L, Exc e))
  /\ (forall r ob, f args (snd (kwargs_pop "basis_id" kwargs)) = Ok r ->
        as_optional_str (fst (kwargs_pop "basis_id" kwargs)) = Some ob ->
        snd (wrap h f f_name tn et fr L args kwargs) = Ok r
        /\ exists e, _logs (fst (wrap h f f_name tn et fr L args kwargs)) = (_logs L ++ [e])%list
                     /\ event_type e = et).
Proof.
  split.
  - intros e Hf. unfold wrap, wrapper.
    destruct (kwargs_pop "basis_id" kwargs) as [b kw'] eqn:Hp. cbn [snd] in Hf.
    cbv beta iota. rewrite Hf. reflexivity.
  - intros r ob Hf Hb. unfold wrap.
    destruct (kwargs_pop "basis_id" kwargs) as [b kw'] eqn:Hp. cbn [fst snd] in Hf, Hb.
    destruct (wrapper_logs (match tn with Some t => if truthy (VStr t) then t else f_name | None => f_name end) et f fr L args kwargs kw' b ob r Hp Hf Hb) as [Hr [e [He [_ [Het _]]]]].
    split; [exact Hr | exists e; split; assumption].
Qed.


(** C9 (as the code has it): without a [basis_id] keyword, [wrapper]
    records [basis_id = None], whatever [last_event_id] is; a given
    [basis_id] is recorded as given; the default to [last_event_id] is
    added by the agent's [execute_action], which passes it as the keyword. *)
Theorem C9_basis_resolution (f : callable) (f_name tool : string) (tn : option string)
    (et : string) (fr : fresh) (L : VeritasLogger) (args : list value)
    (kwargs : list (string * value)) (r : value) :
  existsb (fun kv => String.eqb (fst kv) "basis_id") kwargs = false ->
  f args kwargs = Ok r ->
  (exists e, _logs (fst (wrap h f f_name tn et fr L args kwargs)) = (_logs L ++ [e])%list
             /\ basis_id e = None)
  /\ (forall b, exists e,
        _logs (fst (wrap h f f_name tn et fr L args (("basis_id", VStr b) :: kwargs)))
        = (_logs L ++ [e])%list /\ basis_id e = Some b)
  /\ (exists e, _logs (fst (execute_action h fr L tool f f_name args kwargs)) = (_logs L ++ [e])%list
                /\ basis_id e = last_event_id L).
Proof.
  intros Habs Hf.
  assert (Gen : forall b ob kw, kwargs_pop "basis_id" kw = (b, kwargs) ->
                  as_optional_str b = Some ob -> forall name et',
                exists e, _logs (fst (wrap h f f_name name et' fr L args kw)) = (_logs L ++ [e])%list
                          /\ basis_id e = ob).
  { intros b ob kw Hp Hb name et'. unfold wrap.
    destruct (wrapper_logs (match name with Some t => if truthy (VStr t) then t else f_name | None => f_name end) et' f fr L args kw kwargs b ob r Hp Hf Hb) as [_ [e [He [Hbe _]]]].
    exists e. split; assumption. }
  split; [exact (Gen VNone None kwargs (kwargs_pop_absent kwargs Habs) eq_refl tn et) |].
  split; [intros b; exact (Gen (VStr b) (Some b) _ (kwargs_pop_given (VStr b) kwargs Habs) eq_refl tn et) |].
  unfold execute_action. rewrite Habs.
  destruct (last_event_id L) as [b|].
  - exact (Gen (VStr b) (Some b) _ (kwargs_pop_given (VStr b) kwargs Habs) eq_refl (Some tool) "ACTION").
  - exact (Gen VNone None _ (kwargs_pop_given VNone kwargs Habs) eq_refl (Some tool) "ACTION").
Qed.


End WithHash.

(** C2, witness: a callable that returns, and one that raises. *)
Lemma C2_exception_not_recorded_witness :
  wrap sha256_hex (fun _ _ => Exc "RuntimeError") "boom" None "ACTION"
    {| fresh_id := "act-1"; fresh_time := "2.5" |} (new_logger sha256_hex) [] []
  = (new_logger sha256_hex, Exc "RuntimeError")
  /\ snd (wrap sha256_hex (fun _ _ => Ok (VStr "done")) "trade" None "ACTION"
            {| fresh_id := "act-1"; fresh_time := "2.5" |} (new_logger sha256_hex) [] []) = Ok (VStr "done").
Proof.
  split.
  - apply (proj1 (C2_exception_not_recorded sha256_hex (fun _ _ => Exc "RuntimeError") "boom" None "ACTION"
             {| fresh_id := "act-1"; fresh_time := "2.5" |} (new_logger sha256_hex) [] [])).
    reflexivity.
  - exact (proj1 (proj2 (C2_exception_not_recorded sha256_hex (fun _ _ => Ok (VStr "done")) "trade" None "ACTION"
             {| fresh_id := "act-1"; fresh_time := "2.5" |} (new_logger sha256_hex) [] []) (VStr "done") None
             eq_refl eq_refl)).
Defined.

(** C9, witness: a callable with no arguments that returns ["done"]. *)
Lemma C9_basis_resolution_witness :
  existsb (fun kv => String.eqb (fst kv) "basis_id") (@nil (string * value)) = false
  /\ exists e, _logs (fst (execute_action sha256_hex {| fresh_id := "act-1"; fresh_time := "2.5" |}
                             (new_logger sha256_hex) "trade" (fun _ _ => Ok (VStr "done")) "trade" [] []))
               = (_logs (new_logger sha256_hex) ++ [e])%list
               /\ basis_id e = last_event_id (new_logger sha256_hex).
Proof.
  split; [reflexivity |].
  exact (proj2 (proj2 (C9_basis_resolution sha256_hex (fun _ _ => Ok (VStr "done")) "trade" "trade" None
                         "ACTION" {| fresh_id := "act-1"; fresh_time := "2.5" |} (new_logger sha256_hex)
                         [] [] (VStr "done") eq_refl eq_refl))).
Defined.

(** C2, counterexample: a wrapped callable that raises leaves the log of a
    one-event session unchanged: no ERROR event is appended. *)
Lemma C2_raise_leaves_log_unchanged :
  let L := fst (Logger.observe sha256_hex {| fresh_id := "obs-1"; fresh_time := "1.5" |}
                  (new_logger sha256_hex) "price_feed" [] (VInt 3000)) in
  let out := wrap sha256_hex (fun _ _ => Exc "RuntimeError") "boom" None "ACTION"
                {| fresh_id := "err-1"; fresh_time := "2.5" |} L [] [] in
  snd out = Exc "RuntimeError"
  /\ map event_type (_logs (fst out)) = ["OBSERVATION"].
Proof. split; reflexivity. Qed.

(** C9, counterexample: after one observation ([last_event_id = Some
    "obs-1"]), a wrapped call without [basis_id] records [basis_id = None]. *)
Lemma C9_wrap_ignores_last_event_id :
  let L := fst (Logger.observe sha256_hex {| fresh_id := "obs-1"; fresh_time := "1.5" |}
                  (new_logger sha256_hex) "price_feed" [] (VInt 3000)) in
  let L' := fst (wrap sha256_hex (fun _ _ => Ok (VStr "done")) "trade" None "ACTION"
                   {| fresh_id := "act-1"; fresh_time := "2.5" |} L [] []) in
  last_event_id L = Some "obs-1" /\ map basis_id (_logs L') = [None; None].
Proof. split; reflexivity. Qed.

End WrapClaims.

(* ================================================================== *)
(** * Further properties of the code *)

Module MerkleMore.
Import Merkle MerkleFacts.

Section WithHash.
Variable h : string -> string.

Lemma build_levels_fuel (f g : nat) (l : list string) :
  List.length l <= S f -> List.length l <= S g ->
  last (build_levels h f l) [] = last (build_levels h g l) [].
Proof.
  revert g l. induction f as [|f IH]; intros g l Hf Hg.
  - destruct g as [|g]; [reflexivity |]. cbn [build_levels].
    rewrite (proj2 (Nat.ltb_ge _ _) Hf). reflexivity.
  - destruct g as [|g].
    + cbn [build_levels]. rewrite (proj2 (Nat.ltb_ge _ _) Hg). reflexivity.
    + cbn [build_levels]. destruct (Nat.ltb 1 (List.length l)) eqn:E; [| reflexivity].
      apply Nat.ltb_lt in E.
      pose proof (build_levels_not_nil h f (next_level h l)) as N1.
      pose proof (build_levels_not_nil h g (next_level h l)) as N2.
      destruct (build_levels h f (next_level h l)) as [|a1 r1] eqn:E1; [congruence |].
      destruct (build_levels h g (next_level h l)) as [|a2 r2] eqn:E2; [congruence |].
      change (last (l :: a1 :: r1) []) with (last (a1 :: r1) []).
      change (last (l :: a2 :: r2) []) with (last (a2 :: r2) []).
      rewrite <- E1, <- E2. pose proof (next_level_length h l).
      div2_facts (List.length l + 1). apply IH; lia.
Qed.

Lemma next_level_dup (l : list string) (d : string) :
  Nat.odd (List.length l) = true -> next_level h (l ++ [last l d]) = next_level h l.
Proof.
  revert l. fix IH 1. intros [|a [|b rest]] Hodd.
  - discriminate.
  - reflexivity.
  - destruct rest as [|c rest'] eqn:Er.
    + discriminate.
    + change ((a :: b :: c :: rest') ++ [last (a :: b :: c :: rest') d])%list
        with (a :: b :: ((c :: rest') ++ [last (c :: rest') d]))%list.
      rewrite <- Er in Hodd |- *. cbn [next_level]. f_equal. apply IH.
      change (Nat.odd (S (S (List.length rest))) = true) in Hodd.
      rewrite Nat.odd_succ_succ in Hodd. exact Hodd.
Qed.

Lemma last_map_ne {A B : Type} (f : A -> B) (l : list A) (d : A) (d' : B) :
  l <> [] -> last (map f l) d' = f (last l d).
Proof.
  induction l as [|a l IH]; [congruence |]. intros _.
  destruct l as [|b l]; [reflexivity |].
  change (last (map f (b :: l)) d' = f (last (b :: l) d)). apply IH. discriminate.
Qed.

Lemma get_root_build (l : list string) :
  l <> [] -> get_root (init h (Some l)) = hd_error (last (build_levels h (List.length l) (map h l)) []).
Proof.
  intros Hne. unfold get_root, init, _build. cbn [tree].
  destruct l as [|a r]; [congruence |].
  pose proof (build_levels_not_nil h (List.length (a :: r)) (map h (a :: r))) as N.
  destruct (build_levels h (List.length (a :: r)) (map h (a :: r))); [congruence | reflexivity].
Qed.

Lemma build_levels_step (f : nat) (l : list string) :
  1 < List.length l -> build_levels h (S f) l = l :: build_levels h f (next_level h l).
Proof. intros H. cbn [build_levels]. rewrite (proj2 (Nat.ltb_lt _ _) H). reflexivity. Qed.

Lemma last_cons_ne {A : Type} (x : A) (l : list A) (d : A) : l <> [] -> last (x :: l) d = last l d.
Proof. destruct l; [congruence | reflexivity]. Qed.

Lemma get_root_dup_last (l : list string) :
  Nat.odd (List.length l) = true -> 1 < List.length l ->
  get_root (init h (Some (l ++ [last l ""])%list)) = get_root (init h (Some l)).
Proof.
  intros Hodd Hgt.
  assert (Hne : l <> []) by (intros ->; cbn in Hgt; lia).
  rewrite (get_root_build (l ++ [last l ""])) by (destruct l; discriminate).
  rewrite (get_root_build l Hne). f_equal.
  rewrite length_app, map_app. cbn [List.length map]. rewrite Nat.add_1_r.
  replace (h (last l "")) with (last (map h l) "") by (apply last_map_ne; exact Hne).
  rewrite build_levels_step by (rewrite length_app, length_map; cbn; lia).
  destruct (List.length l) as [|n] eqn:En; [lia |].
  rewrite (build_levels_step n (map h l)) by (rewrite length_map; lia).
  rewrite next_level_dup by (rewrite length_map, En; exact Hodd).
  rewrite !last_cons_ne by apply build_levels_not_nil.
  apply build_levels_fuel; rewrite next_level_length, length_map, En; div2_facts (S n + 1); lia.
Qed.

Lemma log2_up_half (n : nat) : 1 < n -> Nat.log2_up n = S (Nat.log2_up (Nat.div (n + 1) 2)).
Proof.
  intros Hn. div2_facts (n + 1).
  set (m := Nat.div (n + 1) 2) in *.
  destruct (Nat.eq_dec m 1) as [E|E].
  - assert (n = 2) by lia. subst n. rewrite E. reflexivity.
  - assert (Hm : 1 < m) by lia.
    destruct (Nat.log2_up_spec m Hm) as [Lo Hi].
    pose proof (Nat.log2_up_pos m Hm) as Hp.
    destruct (Nat.log2_up m) as [|q] eqn:Eq; [lia |].
    cbn [Nat.pred] in Lo. rewrite Nat.pow_succ_r' in Hi.
    apply Nat.log2_up_unique; [lia |]. cbn [Nat.pred].
    rewrite !Nat.pow_succ_r'. lia.
Qed.

Lemma build_levels_length (f : nat) (l : list string) :
  l <> [] -> List.length l <= S f ->
  List.length (build_levels h f l) = S (Nat.log2_up (List.length l)).
Proof.
  revert l. induction f as [|f IH]; intros l Hne Hf.
  - destruct l as [|a [|b t]]; [congruence | reflexivity | cbn in Hf; lia].
  - cbn [build_levels]. destruct (Nat.ltb 1 (List.length l)) eqn:E.
    + apply Nat.ltb_lt in E. cbn [List.length].
      rewrite IH by (try apply next_level_not_nil, Hne;
                     rewrite next_level_length; div2_facts (List.length l + 1); lia).
      rewrite next_level_length, (log2_up_half _ E). reflexivity.
    + apply Nat.ltb_ge in E.
      destruct l as [|a [|b t]]; [congruence | reflexivity | cbn in E; lia].
Qed.

Lemma proof_levels_length (f : nat) (l : list string) (i : nat) :
  i < List.length l -> List.length l <= S f ->
  List.length (proof_levels (removelast (build_levels h f l)) i) = Nat.log2_up (List.length l).
Proof.
  revert l i. induction f as [|f IH]; intros l i Hi Hf.
  - destruct l as [|a [|b t]]; [cbn in Hi; lia | reflexivity | cbn in Hf; lia].
  - cbn [build_levels]. destruct (Nat.ltb 1 (List.length l)) eqn:E.
    + apply Nat.ltb_lt in E.
      pose proof (build_levels_not_nil h f (next_level h l)) as Hne.
      destruct (build_levels h f (next_level h l)) as [|l0 l1] eqn:Eb; [congruence |].
      change (removelast (l :: l0 :: l1)) with (l :: removelast (l0 :: l1)).
      rewrite <- Eb. cbn [proof_levels].
      rewrite (proj2 (Nat.leb_gt _ _) Hi). cbn [List.length].
      pose proof (next_level_length h l).
      div2_facts i. div2_facts (List.length l + 1).
      rewrite IH by lia. rewrite next_level_length, (log2_up_half _ E). reflexivity.
    + apply Nat.ltb_ge in E.
      destruct l as [|a [|b t]]; [cbn in Hi; lia | reflexivity | cbn in E; lia].
Qed.

Theorem tree_height (l : list string) :
  l <> [] -> List.length (tree (init h (Some l))) = S (Nat.log2_up (List.length l)).
Proof.
  intros Hne. unfold init, _build. cbn [tree].
  destruct l as [|a r]; [congruence |].
  rewrite build_levels_length; [rewrite length_map; reflexivity | |].
  - discriminate.
  - rewrite length_map. lia.
Qed.

Theorem get_proof_length (l : list string) (i : nat) :
  i < List.length l -> List.length (get_proof (init h (Some l)) i) = Nat.log2_up (List.length l).
Proof.
  intros Hi. unfold get_proof, init, _build. cbn [tree].
  destruct l as [|a r]; [cbn in Hi; lia |].
  pose proof (build_levels_not_nil h (List.length (a :: r)) (map h (a :: r))) as Hb.
  destruct (build_levels h (List.length (a :: r)) (map h (a :: r))) eqn:E; [congruence |].
  rewrite <- E. rewrite proof_levels_length; rewrite length_map; [reflexivity | lia | lia].
Qed.

Theorem get_proof_out_of_range (l : list string) (i : nat) :
  List.length l <= i -> get_proof (init h (Some l)) i = [].
Proof.
  intros Hi. unfold get_proof, init, _build. cbn [tree].
  destruct l as [|a r]; [reflexivity |].
  pose proof (build_levels_not_nil h (List.length (a :: r)) (map h (a :: r))) as Hb.
  destruct (build_levels h (List.length (a :: r)) (map h (a :: r))) as [|l0 l1] eqn:E; [congruence |].
  pose proof (build_levels_head h (List.length (a :: r)) (map h (a :: r))) as H0.
  rewrite E in H0. cbn [nth] in H0. subst l0.
  destruct l1 as [|l2 l3]; [reflexivity |].
  change (removelast (map h (a :: r) :: l2 :: l3)) with (map h (a :: r) :: removelast (l2 :: l3)).
  cbn [proof_levels]. rewrite length_map, (proj2 (Nat.leb_le _ _) Hi). reflexivity.
Qed.

Section Binding.
Variable w : nat.
Hypothesis h_width : forall s, String.length (h s) = w.

Lemma append_len_inj (a a' b b' : string) :
  String.length a = String.length a' -> a ++ b = a' ++ b' -> a = a' /\ b = b'.
Proof.
  revert a'. induction a as [|c a IH]; intros [|c' a'] Hl E; cbn in Hl; try lia.
  - split; [reflexivity | exact E].
  - injection E as -> E. destruct (IH a' ltac:(lia) E) as [-> ->]. split; reflexivity.
Qed.

Lemma next_level_inj (l1 l2 : list string) :
  List.length l1 = List.length l2 ->
  (forall x, In x l1 -> String.length x = w) -> (forall x, In x l2 -> String.length x = w) ->
  next_level h l1 = next_level h l2 -> l1 = l2 \/ Scenarios.collision h.
Proof.
  revert l1 l2. fix IH 1.
  intros [|a [|b r1]] [|a' [|b' r2]] Hl W1 W2 E; cbn [List.length] in Hl; try lia.
  - left; reflexivity.
  - cbn [next_level] in E. injection E as E.
    destruct (hash_eq_or h _ _ E) as [E'|C]; [| right; exact C].
    apply append_len_inj in E'; [| rewrite (W1 a), (W2 a') by (left; reflexivity); reflexivity].
    destruct E' as [-> _]. left; reflexivity.
  - cbn [next_level] in E. injection E as E Er.
    destruct (hash_eq_or h _ _ E) as [E'|C]; [| right; exact C].
    apply append_len_inj in E'; [| rewrite (W1 a), (W2 a') by (left; reflexivity); reflexivity].
    destruct E' as [-> ->].
    destruct (IH r1 r2 ltac:(lia) (fun x Hx => W1 x (or_intror (or_intror Hx)))
                (fun x Hx => W2 x (or_intror (or_intror Hx))) Er) as [->|C];
      [left; reflexivity | right; exact C].
Qed.

Lemma build_levels_inj (f : nat) (l1 l2 : list string) :
  List.length l1 = List.length l2 ->
  (forall x, In x l1 -> String.length x = w) -> (forall x, In x l2 -> String.length x = w) ->
  last (build_levels h f l1) [] = last (build_levels h f l2) [] -> l1 = l2 \/ Scenarios.collision h.
Proof.
  revert l1 l2. induction f as [|f IH]; intros l1 l2 Hl W1 W2 E.
  - left. exact E.
  - cbn [build_levels] in E. rewrite <- Hl in E.
    destruct (Nat.ltb 1 (List.length l1)); [| left; exact E].
    pose proof (build_levels_not_nil h f (next_level h l1)) as N1.
    pose proof (build_levels_not_nil h f (next_level h l2)) as N2.
    destruct (build_levels h f (next_level h l1)) as [|a1 r1] eqn:E1; [congruence |].
    destruct (build_levels h f (next_level h l2)) as [|a2 r2] eqn:E2; [congruence |].
    change (last (a1 :: r1) [] = last (a2 :: r2) []) in E. rewrite <- E1, <- E2 in E.
    assert (Wn : forall l x, In x (next_level h l) -> String.length x = w)
      by (intros l x Hx; destruct (next_level_range h l x Hx) as [s ->]; apply h_width).
    destruct (IH (next_level h l1) (next_level h l2) ltac:(rewrite !next_level_length; congruence) (Wn l1) (Wn l2) E) as [En|C];
      [| right; exact C].
    apply next_level_inj; assumption.
Qed.

Lemma map_hash_inj (l1 l2 : list string) : map h l1 = map h l2 -> l1 = l2 \/ Scenarios.collision h.
Proof.
  revert l2. induction l1 as [|a l1 IH]; intros [|b l2] E; try discriminate; [left; reflexivity |].
  injection E as E1 E2.
  destruct (hash_eq_or h _ _ E1) as [->|C]; [| right; exact C].
  destruct (IH l2 E2) as [->|C]; [left; reflexivity | right; exact C].
Qed.

Lemma root_binding (l1 l2 : list string) :
  List.length l1 = List.length l2 ->
  get_root (init h (Some l1)) = get_root (init h (Some l2)) -> l1 = l2 \/ Scenarios.collision h.
Proof.
  intros Hl E.
  destruct l1 as [|a1 r1]; [destruct l2; [left; reflexivity | discriminate] |].
  destruct l2 as [|a2 r2]; [discriminate |].
  rewrite !get_root_build in E by discriminate. rewrite <- Hl in E.
  pose proof (build_levels_top h (List.length (a1 :: r1)) (map h (a1 :: r1)) ltac:(discriminate)
                ltac:(rewrite length_map; lia)) as T1.
  pose proof (build_levels_top h (List.length (a1 :: r1)) (map h (a2 :: r2)) ltac:(discriminate)
                ltac:(rewrite length_map, Hl; lia)) as T2.
  destruct (last (build_levels h _ (map h (a1 :: r1))) []) as [|x1 [|y1 z1]] eqn:L1;
    cbn in T1; try lia.
  destruct (last (build_levels h _ (map h (a2 :: r2))) []) as [|x2 [|y2 z2]] eqn:L2;
    cbn in T2; try lia.
  cbn [hd_error] in E. injection E as <-. rewrite <- L2 in L1.
  assert (W : forall l x, In x (map h l) -> String.length x = w)
    by (intros l x Hx; apply in_map_iff in Hx; destruct Hx as [s [<- _]]; apply h_width).
  destruct (build_levels_inj _ (map h (a1 :: r1)) (map h (a2 :: r2)) ltac:(rewrite !length_map; exact Hl) (W _) (W _) L1) as [Em|C];
    [| right; exact C].
  exact (map_hash_inj _ _ Em).
Qed.

End Binding.

End WithHash.
End MerkleMore.

Module VerifierMore.
Import Logger Session Verifier.
Import MerkleFacts.

Section WithHash.
Variable h : string -> string.

Lemma py_eq_str_true (r : string) (c : value) : py_eq (VStr r) c = true -> c = VStr r.
Proof. destruct c; cbn [py_eq]; try discriminate. intros E. apply String.eqb_eq in E. subst. reflexivity. Qed.

Lemma row_loop_fold (xs : list value) (p : list string) :
  fold_left (fun t x => fst (Merkle.add_leaf h t (Json.dumps x))) xs
            {| Merkle.leaves := p; Merkle.tree := Merkle._build h p |}
  = Merkle.init h (Some (p ++ map Json.dumps xs)%list).
Proof.
  revert p. induction xs as [|x xs IH]; intros p.
  - rewrite app_nil_r. reflexivity.
  - cbn [map fold_left]. unfold Merkle.add_leaf. cbn [fst Merkle.leaves].
    rewrite IH, <- app_assoc. reflexivity.
Qed.

Lemma row_loop_ok (lh : value) (xs : list value) (i : nat) (t : Merkle.MerkleTree) (f : bool)
      (d : list string) (t' : Merkle.MerkleTree) (f' : bool) (d' : list string) :
  row_loop h lh i xs t f d = Ok (t', f', d') ->
  t' = fold_left (fun t x => fst (Merkle.add_leaf h t (Json.dumps x))) xs t
  /\ (f' = false ->
      f = false /\
      (truthy lh = true -> forall n, py_len lh = Ok n ->
       forall j x, nth_error xs j = Some x -> i + j < n ->
       getindex (i + j) lh = Ok (VStr (h (Json.dumps x))))).
Proof.
  revert i t f d. induction xs as [|x xs IH]; intros i t f d E.
  - cbn [row_loop] in E. injection E as <- <- <-. split; [reflexivity |].
    intros Hf. split; [exact Hf |]. intros _ n _ j x' Hj. destruct j; discriminate.
  - cbn [row_loop] in E. cbn [fold_left].
    destruct (truthy lh) eqn:Ht.
    + destruct (py_len lh) as [n|e] eqn:Hn; cbn [bind] in E; [| discriminate].
      destruct (Nat.ltb i n) eqn:Hi.
      * destruct (getindex i lh) as [ex|e] eqn:Hg; cbn [bind] in E; [| discriminate].
        destruct (py_eq (VStr (h (Json.dumps x))) ex) eqn:Hq; cbn [negb] in E.
        -- destruct (dget "tool_name" x) as [tn|e]; cbn [bind] in E; [| discriminate].
           destruct (IH _ _ _ _ E) as [Et Hf]. split; [exact Et |].
           intros Hf'. destruct (Hf Hf') as [Hf0 Hall]. split; [exact Hf0 |].
           intros _ n' Hn' j y Hj Hjn. injection Hn' as <-.
           destruct j as [|j].
           ++ cbn in Hj. injection Hj as <-. rewrite Nat.add_0_r, Hg.
              rewrite (py_eq_str_true _ _ Hq). reflexivity.
           ++ replace (i + S j) with (S i + j) by lia. apply (Hall eq_refl n eq_refl j y Hj). lia.
        -- destruct (dget "tool_name" x) as [tn|e]; cbn [bind] in E; [| discriminate].
           destruct (slice8 ex) as [e8|e]; cbn [bind] in E; [| discriminate].
           destruct (IH _ _ _ _ E) as [Et Hf]. split; [exact Et |].
           intros Hf'. destruct (Hf Hf') as [Hf0 _]. discriminate Hf0.
      * destruct (IH _ _ _ _ E) as [Et Hf]. split; [exact Et |].
        intros Hf'. destruct (Hf Hf') as [Hf0 _]. split; [exact Hf0 |].
        intros _ n' Hn' j y Hj Hjn. injection Hn' as <-.
        apply Nat.ltb_ge in Hi. lia.
    + destruct (IH _ _ _ _ E) as [Et Hf]. split; [exact Et |].
      intros Hf'. destruct (Hf Hf') as [Hf0 _]. split; [exact Hf0 | discriminate].
Qed.

Lemma event_ids_ok (xs : list value) (ids : list value) :
  event_ids xs = Ok ids -> forall b, In b ids -> exists y, In y xs /\ getitem "id" y = Ok b.
Proof.
  revert ids. induction xs as [|x xs IH]; intros ids E b Hb.
  - cbn in E. injection E as <-. destruct Hb.
  - cbn [event_ids] in E. destruct (getitem "id" x) as [v|e] eqn:Hv; cbn [bind] in E; [| discriminate].
    destruct (hashable v); [| discriminate].
    destruct (event_ids xs) as [vs|e]; cbn [bind] in E; [| discriminate].
    injection E as <-. destruct Hb as [<-|Hb].
    + exists x. split; [left; reflexivity | exact Hv].
    + destruct (IH vs eq_refl b Hb) as [y [Hy Hg]]. exists y. split; [right; exact Hy | exact Hg].
Qed.

Lemma chain_loop_ok (ids : list value) (i : nat) (xs : list value) (v : bool) (d : list string)
      (d' : list string) :
  chain_loop ids i xs v d = Ok (true, d') ->
  v = true /\
  forall x, In x xs -> exists b, dget "basis_id" x = Ok b /\
                           (truthy b = true -> existsb (py_eq b) ids = true).
Proof.
  assert (Mono : forall xs i d, chain_loop ids i xs false d = Ok (true, d') -> False).
  { clear. induction xs as [|x xs IH]; intros i d E; cbn [chain_loop] in E.
    - discriminate.
    - destruct (dget "basis_id" x) as [b|e]; cbn [bind] in E; [| discriminate].
      destruct (truthy b).
      + destruct (hashable b); cbn [negb] in E; [| discriminate].
        destruct (existsb (py_eq b) ids); cbn [negb] in E; [| eauto].
        destruct (getitem "tool_name" x) as [tn|e]; cbn [bind] in E; [| discriminate].
        destruct (slice8 b) as [b8|e]; cbn [bind] in E; [| discriminate]. eauto.
      + destruct (dget "event_type" x) as [et|e]; cbn [bind] in E; [| discriminate].
        destruct (py_eq et (VStr "ACTION")); [| eauto].
        destruct (getitem "tool_name" x) as [tn|e]; cbn [bind] in E; [| discriminate]. eauto. }
  revert i v d. induction xs as [|x xs IH]; intros i v d E; cbn [chain_loop] in E.
  - injection E as -> _. split; [reflexivity | intros x []].
  - destruct (dget "basis_id" x) as [b|e] eqn:Hb; cbn [bind] in E; [| discriminate].
    destruct (truthy b) eqn:Ht.
    + destruct (hashable b); cbn [negb] in E; [| discriminate].
      destruct (existsb (py_eq b) ids) eqn:Hex; cbn [negb] in E; [| destruct (Mono _ _ _ E)].
      destruct (getitem "tool_name" x) as [tn|e]; cbn [bind] in E; [| discriminate].
      destruct (slice8 b) as [b8|e]; cbn [bind] in E; [| discriminate].
      destruct (IH _ _ _ E) as [Hv Hall]. split; [exact Hv |].
      intros y [<-|Hy]; [exists b; split; [exact Hb | intros _; exact Hex] | exact (Hall y Hy)].
    + destruct (dget "event_type" x) as [et|e]; cbn [bind] in E; [| discriminate].
      destruct (py_eq et (VStr "ACTION")).
      * destruct (getitem "tool_name" x) as [tn|e]; cbn [bind] in E; [| discriminate].
        destruct (IH _ _ _ E) as [Hv Hall]. split; [exact Hv |].
        intros y [<-|Hy]; [exists b; split; [exact Hb | congruence] | exact (Hall y Hy)].
      * destruct (IH _ _ _ E) as [Hv Hall]. split; [exact Hv |].
        intros y [<-|Hy]; [exists b; split; [exact Hb | congruence] | exact (Hall y Hy)].
Qed.

Lemma root_check_ok (c : option string) (k : value) (d d' : list string) :
  root_check c k d = Ok (true, d') -> k = match c with Some r => VStr r | None => VNone end.
Proof.
  unfold root_check.
  destruct (py_eq (match c with Some r => VStr r | None => VNone end) k) eqn:E; cbn [negb].
  - intros _. destruct c as [r|]; [exact (py_eq_str_true _ _ E) | destruct k; try discriminate; reflexivity].
  - destruct (slice8 _); cbn [bind]; [| discriminate].
    destruct (slice8 k); cbn [bind]; discriminate.
Qed.

Lemma verify_session_true (pd : list (string * value)) (m : string) (d : list string) :
  verify_session h pd = Ok (true, m, d) ->
  let lh := get_or "leaf_hashes" (VList []) pd in
  m = "Session integrity verified" /\
  exists xs, get_or "logs" (VList []) pd = VList xs /\ xs <> [] /\
    (exists r, Merkle.get_root (Merkle.init h (Some (map Json.dumps xs))) = Some r
               /\ get_or "session_root" VNone pd = VStr r) /\
    (truthy lh = true -> forall n, py_len lh = Ok n ->
       forall j x, nth_error xs j = Some x -> j < n -> getindex j lh = Ok (VStr (h (Json.dumps x)))) /\
    (forall x, In x xs -> exists b, dget "basis_id" x = Ok b /\
       (truthy b = true -> exists y b', In y xs /\ getitem "id" y = Ok b' /\ py_eq b b' = true)).
Proof.
  intros E lh. unfold verify_session in E. cbv zeta in E.
  destruct (truthy (get_or "logs" (VList []) pd)) eqn:Hl; cbn [negb] in E; [| discriminate].
  destruct (get_or "logs" (VList []) pd) as [| | | | |xs|] eqn:Hlogs; try discriminate.
  destruct (row_loop h (get_or "leaf_hashes" (VList []) pd) 0 xs (Merkle.init h None) false [])
    as [[[t f] d1]|e] eqn:R1; cbn [bind] in E; [| discriminate].
  destruct (root_check (Merkle.get_root t) (get_or "session_root" VNone pd) d1)
    as [[ro d2]|e] eqn:R2; cbn [bind] in E; [| discriminate].
  destruct (event_ids xs) as [ids|e] eqn:R3; cbn [bind] in E; [| discriminate].
  destruct (chain_loop ids 0 xs true d2) as [[vc d3]|e] eqn:R4; cbn [bind] in E; [| discriminate].
  destruct ro, f, vc; cbn [andb negb] in E; try discriminate.
  injection E as <- <-. split; [reflexivity |].
  assert (Hne : xs <> []) by (intros ->; discriminate Hl).
  destruct (row_loop_ok _ _ _ _ _ _ _ _ _ R1) as [Ht Hrow].
  change (Merkle.init h None) with {| Merkle.leaves := []; Merkle.tree := Merkle._build h [] |} in Ht.
  rewrite row_loop_fold in Ht. cbn [app] in Ht.
  destruct (Hrow eq_refl) as [_ Hleaf].
  destruct (chain_loop_ok _ _ _ _ _ _ R4) as [_ Hchain].
  exists xs. split; [reflexivity |]. split; [exact Hne |]. split; [| split].
  - apply root_check_ok in R2. subst t.
    rewrite MerkleFacts.get_root_init in R2 |- * by (destruct xs; [congruence | discriminate]).
    eexists. split; [reflexivity | exact R2].
  - intros Htr n Hn j x Hj Hjn. exact (Hleaf Htr n Hn j x Hj Hjn).
  - intros x Hx. destruct (Hchain x Hx) as [b [Hb Hin]]. exists b. split; [exact Hb |].
    intros Htb. apply existsb_exists in Hin; [| exact Htb].
    destruct Hin as [b' [Hb' Hq]].
    destruct (event_ids_ok _ _ R3 b' Hb') as [y [Hy Hg]].
    exists y, b'. auto.
Qed.

(** What [verify_session] makes of a document of the [export_proofs]
    layout over any non-empty list of log entries whose claimed root is the
    root of their serializations. *)
Lemma verify_logs_doc (r : string) (c t : value) (es : list ActionLog) :
  es <> [] -> Merkle.get_root (Merkle.init h (Some (map to_hashable_json es))) = Some r ->
  let ok := forallb (basis_found_in (map id es)) es in
  exists d,
    verify_session h [("session_root", VStr r); ("event_count", c); ("timestamp", t);
                      ("logs", VList (map model_dump es))]
    = Ok (ok, (if ok then "Session integrity verified" else "Session integrity verification FAILED"),
          ("Merkle Root verified: " ++ r) :: d).
Proof.
  intros Hne Hroot ok.
  destruct (SessionFacts.chain_loop_export h (map id es) es 0 true ["Merkle Root verified: " ++ r])
    as [d' [Heq _]].
  exists d'.
  unfold verify_session.
  cbn [get_or assoc_get String.eqb Ascii.eqb Bool.eqb fst snd].
  assert (Htr : truthy (VList (map model_dump es)) = true) by (destruct es; [congruence | reflexivity]).
  rewrite Htr. cbn [negb]. rewrite SessionFacts.row_loop_no_claims. cbn [bind].
  change (Merkle.init h None) with {| Merkle.leaves := []; Merkle.tree := Merkle._build h [] |}.
  rewrite (SessionFacts.verifier_tree_from h es []). cbn [app].
  rewrite Hroot. unfold root_check. cbn [py_eq]. rewrite String.eqb_refl. cbn [negb bind app].
  change (fmt (VStr r)) with r.
  rewrite SessionFacts.event_ids_export. cbn [bind].
  replace (map (fun e => VStr (id e)) es) with (map VStr (map id es)) by (rewrite map_map; reflexivity).
  rewrite Heq. cbn [bind andb negb app]. reflexivity.
Qed.

Lemma basis_found_in_dup (ids : list string) (x : string) (e : ActionLog) :
  In x ids -> basis_found_in (ids ++ [x])%list e = basis_found_in ids e.
Proof.
  intros Hx. unfold basis_found_in. destruct (basis_id e) as [b|]; [| reflexivity].
  f_equal. rewrite existsb_app. cbn [existsb]. rewrite orb_false_r.
  destruct (String.eqb b x) eqn:E; [| apply orb_false_r].
  apply String.eqb_eq in E. subst x.
  assert (existsb (String.eqb b) ids = true)
    by (apply existsb_exists; exists b; split; [exact Hx | apply String.eqb_refl]).
  rewrite H. reflexivity.
Qed.

Lemma forallb_congr {A : Type} (p q : A -> bool) (l : list A) :
  (forall x, p x = q x) -> forallb p l = forallb q l.
Proof. intros E. induction l as [|a l IH]; cbn [forallb]; congruence. Qed.

Lemma forallb_dup_last {A : Type} (p : A -> bool) (l : list A) (a : A) :
  l <> [] -> forallb p (l ++ [last l a])%list = forallb p l.
Proof.
  intros Hne. rewrite forallb_app. cbn [forallb]. rewrite andb_true_r.
  destruct (forallb p l) eqn:E; [| reflexivity].
  rewrite forallb_forall in E. apply E, last_In_ne, Hne.
Qed.

End WithHash.

Lemma sample_session_reachable (h : string -> string) : reachable h (Scenarios.sample_session h).
Proof. exact (reach_log _ _ _ _ _ _ _ _ (reach_log _ _ _ _ _ _ _ _ (reach_log _ _ _ _ _ _ _ _ (reach_new _)))). Qed.

End VerifierMore.

Module LoggerMore.
Import Logger Session.

Lemma last_event_id_reachable (h : string -> string) (L : VeritasLogger) :
  reachable h L -> last_event_id L = match rev (_logs L) with [] => None | e :: _ => Some (id e) end.
Proof.
  induction 1 as [|L fr tn params res et b HL IH]; [reflexivity |].
  unfold log_action. cbn [fst _logs last_event_id]. rewrite rev_app_distr. reflexivity.
Qed.

Lemma reachable_calls_tree (h : string -> string) (L : VeritasLogger) (done : list ActionLog) :
  reachable_calls h L done -> _merkle_tree L = Merkle.init h (Some (map to_hashable_json done)).
Proof.
  induction 1 as [|L done fr tn params res et b HL IH|L done fr tn params res et b HL IH];
    [reflexivity | |].
  - unfold log_action. cbn [fst snd _merkle_tree]. rewrite IH.
    unfold Merkle.add_leaf, Merkle.init. cbn [fst Merkle.leaves]. rewrite map_app. reflexivity.
  - exact IH.
Qed.

Lemma reachable_calls_last_event_id (h : string -> string) (L : VeritasLogger) (done : list ActionLog) :
  reachable_calls h L done ->
  last_event_id L = match rev (_logs L) with [] => None | e :: _ => Some (id e) end.
Proof.
  induction 1 as [|L done fr tn params res et b HL IH|L done fr tn params res et b HL IH];
    [reflexivity | |].
  - unfold log_action. cbn [fst _logs last_event_id]. rewrite rev_app_distr. reflexivity.
  - unfold log_action_unserializable. cbn [fst _logs last_event_id]. rewrite rev_app_distr. reflexivity.
Qed.

Lemma reachable_calls_incl (h : string -> string) (L : VeritasLogger) (done : list ActionLog) :
  reachable_calls h L done -> incl done (_logs L) /\ List.length done <= List.length (_logs L).
Proof.
  induction 1 as [|L done fr tn params res et b HL [IHi IHl]|L done fr tn params res et b HL [IHi IHl]].
  - split; [intros x Hx; exact Hx | reflexivity].
  - unfold log_action. cbn [fst snd _logs]. rewrite !length_app. cbn [List.length].
    split; [apply incl_app_app; [exact IHi | apply incl_refl] | lia].
  - unfold log_action_unserializable. cbn [fst _logs]. rewrite length_app. cbn [List.length].
    split; [apply incl_appl, IHi | lia].
Qed.

Lemma reachable_calls_reachable (h : string -> string) (L : VeritasLogger) :
  reachable h L -> reachable_calls h L (_logs L).
Proof.
  induction 1 as [|L fr tn params res et b HL IH]; [constructor |].
  exact (calls_log h L (_logs L) fr tn params res et b IH).
Qed.

End LoggerMore.

(* ------------------------------------------------------------------ *)
(** * More properties of the code *)

Module MerkleExtras.
Import Merkle MerkleFacts MerkleMore.

(** For an odd number of leaves (at least three), appending a copy of the
    last leaf leaves the root unchanged: [_build] pairs the last node of an
    odd level with itself. *)
Theorem merkle_root_repeated_last_leaf (h : string -> string) (l : list string) :
  Nat.odd (List.length l) = true -> 1 < List.length l ->
  get_root (init h (Some (l ++ [last l ""])%list)) = get_root (init h (Some l)).
Proof. exact (get_root_dup_last h l). Qed.

Lemma merkle_root_repeated_last_leaf_witness :
  get_root (init sha256_hex (Some (["a"; "b"; "c"] ++ [last ["a"; "b"; "c"] ""])%list))
  = get_root (init sha256_hex (Some ["a"; "b"; "c"])).
Proof. apply (merkle_root_repeated_last_leaf sha256_hex ["a"; "b"; "c"]); [reflexivity | cbn; lia]. Defined.

(** A tree of [N >= 1] leaves has [ceil(log2 N) + 1] levels. *)
Theorem merkle_tree_height (h : string -> string) (l : list string) :
  l <> [] -> List.length (tree (init h (Some l))) = S (Nat.log2_up (List.length l)).
Proof. exact (tree_height h l). Qed.

Lemma merkle_tree_height_witness :
  List.length (tree (init sha256_hex (Some ["a"; "b"; "c"; "d"; "e"]))) = S (Nat.log2_up 5).
Proof. exact (merkle_tree_height sha256_hex ["a"; "b"; "c"; "d"; "e"] ltac:(discriminate)). Defined.

(** [get_proof(i)] for a leaf index [i < N] has [ceil(log2 N)] entries,
    one per level below the root. *)
Theorem merkle_get_proof_length (h : string -> string) (l : list string) (i : nat) :
  i < List.length l -> List.length (get_proof (init h (Some l)) i) = Nat.log2_up (List.length l).
Proof. exact (get_proof_length h l i). Qed.

Lemma merkle_get_proof_length_witness :
  List.length (get_proof (init sha256_hex (Some ["a"; "b"; "c"; "d"; "e"])) 4) = Nat.log2_up 5.
Proof. exact (merkle_get_proof_length sha256_hex ["a"; "b"; "c"; "d"; "e"] 4 ltac:(cbn; lia)). Defined.

(** [get_proof(i)] for an index [i >= N] (an empty tree included) returns
    the empty proof instead of failing. *)
Theorem merkle_get_proof_out_of_range (h : string -> string) (l : list string) (i : nat) :
  List.length l <= i -> get_proof (init h (Some l)) i = [].
Proof. exact (get_proof_out_of_range h l i). Qed.

Lemma merkle_get_proof_out_of_range_witness :
  get_proof (init sha256_hex (Some ["a"; "b"])) 2 = [].
Proof. exact (merkle_get_proof_out_of_range sha256_hex ["a"; "b"] 2 ltac:(cbn; lia)). Defined.

(** With SHA-256, two leaf lists of the same length that have the same
    root are equal, unless SHA-256 has a collision. *)
Theorem merkle_root_binding_sha256 (l1 l2 : list string) :
  List.length l1 = List.length l2 ->
  get_root (init sha256_hex (Some l1)) = get_root (init sha256_hex (Some l2)) ->
  l1 = l2 \/ Scenarios.collision sha256_hex.
Proof. exact (root_binding sha256_hex 64 sha256_hex_length l1 l2). Qed.

Lemma merkle_root_binding_sha256_witness : ["a"] = ["a"] \/ Scenarios.collision sha256_hex.
Proof. exact (merkle_root_binding_sha256 ["a"] ["a"] eq_refl eq_refl). Defined.

End MerkleExtras.

Module VerifierExtras.
Import Logger Session Verifier VerifierMore.

(** A document [verify_session] accepts: it has a non-empty list of logs,
    its [session_root] is the root of the tree of their [json.dumps]
    serializations, every [leaf_hashes] entry it holds for a log is that
    log's leaf hash, and every truthy [basis_id] equals the [id] of one of
    its logs. *)
Theorem verify_session_accepts (h : string -> string) (pd : list (string * value))
    (m : string) (d : list string) :
  verify_session h pd = Ok (true, m, d) ->
  let lh := get_or "leaf_hashes" (VList []) pd in
  m = "Session integrity verified" /\
  exists xs, get_or "logs" (VList []) pd = VList xs /\ xs <> [] /\
    (exists r, Merkle.get_root (Merkle.init h (Some (map Json.dumps xs))) = Some r
               /\ get_or "session_root" VNone pd = VStr r) /\
    (truthy lh = true -> forall n, py_len lh = Ok n ->
       forall j x, nth_error xs j = Some x -> j < n -> getindex j lh = Ok (VStr (h (Json.dumps x)))) /\
    (forall x, In x xs -> exists b, dget "basis_id" x = Ok b /\
       (truthy b = true -> exists y b', In y xs /\ getitem "id" y = Ok b' /\ py_eq b b' = true)).
Proof. exact (verify_session_true h pd m d). Qed.

Lemma verify_session_accepts_witness :
  exists m d, verify_session (fun s => s) Scenarios.sample_doc = Ok (true, m, d)
  /\ (let lh := get_or "leaf_hashes" (VList []) Scenarios.sample_doc in
      m = "Session integrity verified" /\
      exists xs, get_or "logs" (VList []) Scenarios.sample_doc = VList xs /\ xs <> [] /\
        (exists r, Merkle.get_root (Merkle.init (fun s => s) (Some (map Json.dumps xs))) = Some r
                   /\ get_or "session_root" VNone Scenarios.sample_doc = VStr r) /\
        (truthy lh = true -> forall n, py_len lh = Ok n ->
           forall j x, nth_error xs j = Some x -> j < n -> getindex j lh = Ok (VStr (Json.dumps x))) /\
        (forall x, In x xs -> exists b, dget "basis_id" x = Ok b /\
           (truthy b = true -> exists y b', In y xs /\ getitem "id" y = Ok b' /\ py_eq b b' = true))).
Proof.
  eexists. eexists. split; [vm_compute; reflexivity |].
  eapply (verify_session_accepts (fun s => s) Scenarios.sample_doc). vm_compute. reflexivity.
Defined.

(** A document with a non-empty list of logs, no [leaf_hashes] and a
    missing (or [null]) [session_root] makes [verify_session] raise a
    [TypeError] (at [claimed_root[:8]]) instead of returning [False]. *)
Theorem verify_session_missing_root (h : string -> string) (pd : list (string * value))
    (xs : list value) :
  get_or "logs" (VList []) pd = VList xs -> xs <> [] ->
  get_or "leaf_hashes" (VList []) pd = VList [] ->
  get_or "session_root" VNone pd = VNone ->
  verify_session h pd = Exc "TypeError".
Proof.
  intros Hl Hne Hlh Hr. unfold verify_session. rewrite Hl, Hlh, Hr.
  assert (Htr : truthy (VList xs) = true) by (destruct xs; [congruence | reflexivity]).
  rewrite Htr. cbn [negb]. rewrite SessionFacts.row_loop_no_claims. cbn [bind].
  change (Merkle.init h None) with {| Merkle.leaves := []; Merkle.tree := Merkle._build h [] |}.
  rewrite row_loop_fold. cbn [app].
  rewrite MerkleFacts.get_root_init by (destruct xs; [congruence | discriminate]).
  reflexivity.
Qed.

Lemma verify_session_missing_root_witness :
  verify_session sha256_hex [("logs", VList [VDict []])] = Exc "TypeError".
Proof.
  exact (verify_session_missing_root sha256_hex [("logs", VList [VDict []])] [VDict []]
           eq_refl ltac:(discriminate) eq_refl eq_refl).
Defined.

(** The export of a session whose last log entry is written a second
    time (the [event_count] kept) gets the same verdict from
    [verify_session] as the honest export, when the session has an odd
    number (at least three) of events, and a hash that never returns the
    empty string. *)
Theorem verify_repeated_last_event (h : string -> string) (now : string) (L : VeritasLogger)
    (e : ActionLog) :
  reachable h L -> (forall s, h s <> "") ->
  Nat.odd (List.length (_logs L)) = true -> 1 < List.length (_logs L) ->
  exists ok m d m' d',
    verify_session h (export_proofs now L) = Ok (ok, m, d)
    /\ verify_session h (Scenarios.export_repeating_last now L e) = Ok (ok, m', d').
Proof.
  intros HL Hh Hodd Hgt.
  assert (Hne : _logs L <> []) by (intros E; rewrite E in Hgt; cbn in Hgt; lia).
  pose proof (SessionFacts.get_current_root_reachable h L HL Hh Hne) as Hroot.
  rewrite (SessionFacts.reachable_tree h L HL) in Hroot.
  destruct (verify_logs_doc h (get_current_root L) (VInt (Z.of_nat (List.length (_logs L))))
              (VFloat now) (_logs L) Hne Hroot) as [d Hd].
  assert (Hroot' : Merkle.get_root (Merkle.init h (Some (map to_hashable_json (_logs L ++ [last (_logs L) e])%list)))
                   = Some (get_current_root L)).
  { rewrite map_app. cbn [map].
    rewrite <- (MerkleMore.last_map_ne to_hashable_json (_logs L) e "" Hne).
    rewrite MerkleMore.get_root_dup_last; [exact Hroot | |]; rewrite length_map; assumption. }
  destruct (verify_logs_doc h (get_current_root L) (VInt (Z.of_nat (List.length (_logs L))))
              (VFloat now) (_logs L ++ [last (_logs L) e])%list
              ltac:(destruct (_logs L); discriminate) Hroot') as [d' Hd'].
  rewrite forallb_dup_last in Hd' by exact Hne.
  assert (Eq : forallb (basis_found_in (map id (_logs L ++ [last (_logs L) e])%list)) (_logs L)
               = forallb (basis_found_in (map id (_logs L))) (_logs L)).
  { apply forallb_congr. intros x. rewrite map_app. apply basis_found_in_dup.
    apply in_map, MerkleFacts.last_In_ne, Hne. }
  rewrite Eq in Hd'.
  do 5 eexists. split; [exact Hd | exact Hd'].
Qed.

Lemma verify_repeated_last_event_witness :
  exists ok m d m' d',
    verify_session sha256_hex (export_proofs "9.0" (Scenarios.sample_session sha256_hex)) = Ok (ok, m, d)
    /\ verify_session sha256_hex
         (Scenarios.export_repeating_last "9.0" (Scenarios.sample_session sha256_hex)
            (Build_ActionLog "" None "" "" "" [] VNone)) = Ok (ok, m', d').
Proof.
  apply (verify_repeated_last_event sha256_hex "9.0" (Scenarios.sample_session sha256_hex)).
  - apply VerifierMore.sample_session_reachable.
  - exact sha256_hex_not_empty.
  - reflexivity.
  - cbn. lia.
Defined.

(** A document [verify_session] accepts with SHA-256, whose [session_root]
    is the current root of a recorded session and which has as many logs
    as the session, carries exactly the session's serialized logs, unless
    SHA-256 has a collision. *)
Theorem verified_document_matches_session (L : VeritasLogger) (pd : list (string * value))
    (m : string) (d : list string) :
  reachable sha256_hex L -> _logs L <> [] ->
  get_or "session_root" VNone pd = VStr (get_current_root L) ->
  verify_session sha256_hex pd = Ok (true, m, d) ->
  exists xs, get_or "logs" (VList []) pd = VList xs /\
    (List.length xs = List.length (_logs L) ->
     map Json.dumps xs = map to_hashable_json (_logs L) \/ Scenarios.collision sha256_hex).
Proof.
  intros HL Hne Hr Hv.
  destruct (verify_session_true sha256_hex pd m d Hv) as [_ [xs [Hxs [_ [[r [Hr1 Hr2]] _]]]]].
  exists xs. split; [exact Hxs |]. intros Hlen.
  pose proof (SessionFacts.get_current_root_reachable sha256_hex L HL sha256_hex_not_empty Hne) as Hc.
  rewrite (SessionFacts.reachable_tree sha256_hex L HL) in Hc.
  rewrite Hr in Hr2. injection Hr2 as <-.
  apply (MerkleMore.root_binding sha256_hex 64 sha256_hex_length).
  - rewrite !length_map. exact Hlen.
  - congruence.
Qed.

Lemma verified_document_matches_session_witness :
  exists m d,
    verify_session sha256_hex (export_proofs "9.0" (Scenarios.sample_session sha256_hex)) = Ok (true, m, d)
    /\ exists xs, get_or "logs" (VList []) (export_proofs "9.0" (Scenarios.sample_session sha256_hex)) = VList xs /\
       (List.length xs = List.length (_logs (Scenarios.sample_session sha256_hex)) ->
        map Json.dumps xs = map to_hashable_json (_logs (Scenarios.sample_session sha256_hex))
        \/ Scenarios.collision sha256_hex).
Proof.
  eexists. eexists. split; [vm_compute; reflexivity |].
  eapply (verified_document_matches_session (Scenarios.sample_session sha256_hex)
            (export_proofs "9.0" (Scenarios.sample_session sha256_hex))).
  - apply VerifierMore.sample_session_reachable.
  - discriminate.
  - reflexivity.
  - vm_compute. reflexivity.
Defined.

End VerifierExtras.

Module LoggerExtras.
Import Logger Session LoggerMore.

(** After any sequence of [log_action] calls on a new logger, each one
    completing or raising in [to_hashable_json] (its exception caught by
    the caller), [last_event_id] is the [id] of the last log ([None] while
    there is none), and the tree is the tree built at once from the
    [to_hashable_json] of the entries whose call completed, in order; these
    entries are all in the log. *)
Theorem logger_state_invariant (h : string -> string) (L : VeritasLogger) (done : list ActionLog) :
  reachable_calls h L done ->
  _merkle_tree L = Merkle.init h (Some (map to_hashable_json done))
  /\ last_event_id L = match rev (_logs L) with [] => None | e :: _ => Some (id e) end
  /\ incl done (_logs L) /\ List.length done <= List.length (_logs L).
Proof.
  intros HL. split; [exact (reachable_calls_tree h L done HL) |].
  split; [exact (reachable_calls_last_event_id h L done HL) | exact (reachable_calls_incl h L done HL)].
Qed.

Lemma logger_state_invariant_witness :
  let fr1 := {| fresh_id := "o1"; fresh_time := "1.0" |} in
  let fr2 := {| fresh_id := "o2"; fresh_time := "2.0" |} in
  let L1 := fst (log_action_unserializable fr1 (new_logger sha256_hex) "feed" [] VNone "OBSERVATION" None) in
  let L2 := fst (log_action sha256_hex fr2 L1 "feed" [] (VInt 1) "OBSERVATION" None) in
  let done := [snd (log_action sha256_hex fr2 L1 "feed" [] (VInt 1) "OBSERVATION" None)] in
  _merkle_tree L2 = Merkle.init sha256_hex (Some (map to_hashable_json done))
  /\ last_event_id L2 = match rev (_logs L2) with [] => None | e :: _ => Some (id e) end
  /\ incl done (_logs L2) /\ List.length done <= List.length (_logs L2).
Proof.
  intros fr1 fr2 L1 L2 done.
  apply (logger_state_invariant sha256_hex L2 done).
  exact (calls_log sha256_hex L1 [] fr2 "feed" [] (VInt 1) "OBSERVATION" None
           (calls_raise sha256_hex (new_logger sha256_hex) [] fr1 "feed" [] VNone "OBSERVATION" None
              (calls_new sha256_hex))).
Defined.

End LoggerExtras.
